(** * Turn processing and story creation of the interactive-fiction engine

    A shallow embedding of [generateStoryLogic] and [processPlayerTurnLogic]
    (the Cloud Functions entry points of [functions/src/index.ts]) together
    with the JavaScript built-ins they rely on: string cleaning
    ([replace], [trim], [startsWith], [endsWith]), [JSON.stringify],
    [JSON.parse], truthiness and property access on parsed values.

    Modelling conventions.
    - A JavaScript string is a [string]: a sequence of code units below 256.
    - A JSON number is an integer [Z]; the counters of the data model
      ([turnCount], [currentStage]) are integers, and additions on them are
      exact in the range where JavaScript numbers are exact integers.
    - A JavaScript object is an association list in enumeration order,
      which is insertion order; the special place JavaScript gives to
      integer-like keys is not modelled.
    - The TypeScript interfaces are erased at run time: what the store holds
      and what the language model returns is any JSON value, so the
      game-knowledge state is a [JValue] and not a typed record.
    - An exception thrown inside a [try] block is [None] in the option
      monad; an [HttpsError] that leaves the function is the left summand of
      the result. *)

From Stdlib Require Import ZArith Ascii String List Bool Lia.
From stdpp Require Import base option strings pretty gmap.

Local Set Warnings "-register-all".
Local Open Scope string_scope.
Local Open Scope Z_scope.

(** ** JSON values *)

Inductive JValue : Type :=
| JNull
| JBool (b : bool)
| JNum (n : Z)
| JStr (s : string)
| JArr (items : list JValue)
| JObj (members : list (string * JValue)).

(** JavaScript truthiness ([!x] is [negb (truthy x)]): [null], [false], [0]
    and the empty string are falsy, every array and object is truthy. *)
Definition truthy (v : JValue) : bool :=
  match v with
  | JNull => false
  | JBool b => b
  | JNum n => negb (n =? 0)
  | JStr s => negb (String.eqb s "")
  | JArr _ => true
  | JObj _ => true
  end.

(** [undefined] is [None]. *)
Definition truthy_opt (o : option JValue) : bool :=
  match o with
  | None => false
  | Some v => truthy v
  end.

Fixpoint assoc_get (k : string) (ms : list (string * JValue)) : option JValue :=
  match ms with
  | [] => None
  | (k', v) :: ms' => if String.eqb k k' then Some v else assoc_get k ms'
  end.

(** Assignment of a property: an existing key keeps its place, a new key is
    appended. *)
Fixpoint assoc_set (k : string) (v : JValue) (ms : list (string * JValue))
  : list (string * JValue) :=
  match ms with
  | [] => [(k, v)]
  | (k', v') :: ms' =>
      if String.eqb k k' then (k, v) :: ms' else (k', v') :: assoc_set k v ms'
  end.

(** [obj.k] for a key [k] that no prototype defines ([narrative],
    [updatedGkn], [gkn], [initialHook], [turnCount], ...).  Reading a
    property of [null] throws a [TypeError] (outer [None]); reading from a
    primitive or an array gives [undefined] (inner [None]). *)
Definition get_prop (v : JValue) (k : string) : option (option JValue) :=
  match v with
  | JNull => None
  | JObj ms => Some (assoc_get k ms)
  | _ => Some None
  end.

(** ** String built-ins *)

Definition nl : string := String (ascii_of_nat 10) "".
Definition dq : string := String (ascii_of_nat 34) "".

Definition startsWith (s pre : string) : bool := String.prefix pre s.

Fixpoint endsWith_aux (s suf : string) (n : nat) : bool :=
  match n with
  | O => String.eqb s suf
  | S n' => match s with
            | "" => false
            | String _ s' => endsWith_aux s' suf n'
            end
  end.

Definition endsWith (s suf : string) : bool :=
  Nat.leb (String.length suf) (String.length s)
  && endsWith_aux s suf (String.length s - String.length suf).

(** [s.replace(/pat/g, "")] for a literal, non-empty pattern: every
    leftmost non-overlapping occurrence is dropped.  [skip] counts the code
    units of the current match that are still to be dropped. *)
Fixpoint remove_all_from (pat s : string) (skip : nat) : string :=
  match s with
  | "" => ""
  | String c s' =>
      match skip with
      | S k => remove_all_from pat s' k
      | O => if String.prefix pat s
             then remove_all_from pat s' (String.length pat - 1)
             else String c (remove_all_from pat s' 0)
      end
  end.

Definition remove_all (pat s : string) : string := remove_all_from pat s 0.

(** White space and line terminators of [String.prototype.trim] among the
    code units below 256. *)
Definition is_js_space (c : ascii) : bool :=
  match N_of_ascii c with
  | 9 | 10 | 11 | 12 | 13 | 32 | 160 => true
  | _ => false
  end%N.

Fixpoint trimStart (s : string) : string :=
  match s with
  | "" => ""
  | String c s' => if is_js_space c then trimStart s' else s
  end.

Fixpoint trimEnd (s : string) : string :=
  match s with
  | "" => ""
  | String c s' =>
      match trimEnd s' with
      | "" => if is_js_space c then "" else String c ""
      | t => String c t
      end
  end.

Definition trim (s : string) : string := trimEnd (trimStart s).

(** The cleaning both handlers apply to the model's reply:
    [responseText.replace(/```json/g, "").replace(/```/g, "").trim()]. *)
Definition clean_response (responseText : string) : string :=
  trim (remove_all "```" (remove_all "```json" responseText)).

(** ** [JSON.stringify(value, null, 2)] *)

Definition hex_digit (n : N) : ascii :=
  ascii_of_N (if (n <? 10)%N then 48 + n else 87 + n)%N.

(** [QuoteJSONString]: the quote, the backslash and the control characters
    are escaped, everything else is copied. *)
Definition quote_char (c : ascii) : string :=
  let n := N_of_ascii c in
  match n with
  | 34 => "\" +:+ dq
  | 92 => "\\"
  | 8 => "\b"
  | 9 => "\t"
  | 10 => "\n"
  | 12 => "\f"
  | 13 => "\r"
  | _ => if (n <? 32)%N
         then "\u00" +:+ String (hex_digit (n / 16)) (String (hex_digit (n mod 16)) "")
         else String c ""
  end%N.

Fixpoint quote_body (s : string) : string :=
  match s with
  | "" => ""
  | String c s' => quote_char c +:+ quote_body s'
  end.

Definition QuoteJSONString (s : string) : string := dq +:+ quote_body s +:+ dq.

(** [SerializeJSONArray] and [SerializeJSONObject] with a gap of two
    spaces: the serialized parts are joined by a comma and a line break at
    the inner indentation and wrapped in the brackets; an empty container
    is just its brackets. *)
Definition wrap (open close indent : string) (parts : list string) : string :=
  match parts with
  | [] => open +:+ close
  | _ =>
      let inner := indent +:+ "  " in
      open +:+ nl +:+ inner
      +:+ String.concat ("," +:+ nl +:+ inner) parts
      +:+ nl +:+ indent +:+ close
  end.

Fixpoint stringify_at (indent : string) (v : JValue) : string :=
  let inner := indent +:+ "  " in
  match v with
  | JNull => "null"
  | JBool true => "true"
  | JBool false => "false"
  | JNum n => pretty n
  | JStr s => QuoteJSONString s
  | JArr l => wrap "[" "]" indent (map (stringify_at inner) l)
  | JObj ms =>
      wrap "{" "}" indent
        (map (fun kv : string * JValue =>
                let '(k, x) := kv in
                QuoteJSONString k +:+ ": " +:+ stringify_at inner x) ms)
  end.

Definition JSON_stringify (v : JValue) : string := stringify_at "" v.

(** ** [JSON.parse] *)

Definition is_json_ws (c : ascii) : bool :=
  match N_of_ascii c with
  | 9 | 10 | 13 | 32 => true
  | _ => false
  end%N.

Fixpoint skip_ws (s : string) : string :=
  match s with
  | "" => ""
  | String c s' => if is_json_ws c then skip_ws s' else s
  end.

Definition hex_val (c : ascii) : option N :=
  let n := N_of_ascii c in
  if (48 <=? n)%N && (n <=? 57)%N then Some (n - 48)%N
  else if (97 <=? n)%N && (n <=? 102)%N then Some (n - 87)%N
  else if (65 <=? n)%N && (n <=? 70)%N then Some (n - 55)%N
  else None.

Definition hex4 (a b c d : ascii) : option N :=
  h1 ← hex_val a; h2 ← hex_val b; h3 ← hex_val c; h4 ← hex_val d;
  Some (((h1 * 16 + h2) * 16 + h3) * 16 + h4)%N.

Definition push_char (c : ascii) (r : option (string * string))
  : option (string * string) :=
  '(body, rest) ← r; Some (String c body, rest).

(** The characters of a string literal after its opening quote, up to and
    including the closing quote.  A raw control character is a syntax
    error; an escape that denotes a code unit of 256 or more has no
    counterpart in [string] and is refused. *)
Fixpoint parse_chars (s : string) : option (string * string) :=
  match s with
  | "" => None
  | String c s' =>
      match N_of_ascii c with
      | 34 => Some ("", s')
      | 92 =>
          match s' with
          | "" => None
          | String e s'' =>
              match N_of_ascii e with
              | 34 | 92 | 47 => push_char e (parse_chars s'')
              | 98 => push_char (ascii_of_N 8) (parse_chars s'')
              | 102 => push_char (ascii_of_N 12) (parse_chars s'')
              | 110 => push_char (ascii_of_N 10) (parse_chars s'')
              | 114 => push_char (ascii_of_N 13) (parse_chars s'')
              | 116 => push_char (ascii_of_N 9) (parse_chars s'')
              | 117 =>
                  match s'' with
                  | String h1 (String h2 (String h3 (String h4 s5))) =>
                      match hex4 h1 h2 h3 h4 with
                      | Some u => if (u <? 256)%N
                                  then push_char (ascii_of_N u) (parse_chars s5)
                                  else None
                      | None => None
                      end
                  | _ => None
                  end
              | _ => None
              end
          end
      | n => if (n <? 32)%N then None else push_char c (parse_chars s')
      end%N
  end.

Definition is_digit (c : ascii) : bool :=
  let n := N_of_ascii c in (48 <=? n)%N && (n <=? 57)%N.

Definition digit_val (c : ascii) : Z := Z.of_N (N_of_ascii c) - 48.

Fixpoint parse_digits (acc : Z) (s : string) : Z * string :=
  match s with
  | "" => (acc, "")
  | String c s' =>
      if is_digit c then parse_digits (10 * acc + digit_val c) s' else (acc, s)
  end.

(** An unsigned integer literal: [0], or a non-zero digit followed by
    digits.  A fraction or exponent part is outside the integers of the
    model and is refused. *)
Definition parse_nat_lit (s : string) : option (Z * string) :=
  match s with
  | "" => None
  | String c s' =>
      if negb (is_digit c) then None
      else
        let '(n, rest) :=
          if (N_of_ascii c =? 48)%N then (0, s') else parse_digits (digit_val c) s' in
        match rest with
        | String d _ =>
            match N_of_ascii d with
            | 46 | 69 | 101 => None
            | _ => Some (n, rest)
            end%N
        | "" => Some (n, rest)
        end
  end.

Definition parse_number (s : string) : option (Z * string) :=
  match s with
  | String c s' =>
      if (N_of_ascii c =? 45)%N
      then '(n, rest) ← parse_nat_lit s'; Some (- n, rest)
      else parse_nat_lit s
  | "" => None
  end.

Fixpoint assoc_remove (k : string) (ms : list (string * JValue))
  : list (string * JValue) :=
  match ms with
  | [] => []
  | (k', v) :: ms' =>
      if String.eqb k k' then assoc_remove k ms' else (k', v) :: assoc_remove k ms'
  end.

(** A member [k: v] in front of the members [ms] that follow it in the
    text: the key is enumerated where it first occurs and holds the value of
    its last occurrence. *)
Definition add_member (k : string) (v : JValue) (ms : list (string * JValue))
  : list (string * JValue) :=
  match assoc_get k ms with
  | Some v' => (k, v') :: assoc_remove k ms
  | None => (k, v) :: ms
  end.

Fixpoint drop_chars (n : nat) (s : string) : string :=
  match n, s with
  | O, _ => s
  | S n', String _ s' => drop_chars n' s'
  | S _, "" => ""
  end.

(** One of the literals [null], [true], [false]. *)
Definition expect (lit : string) (v : JValue) (s : string) : option (JValue * string) :=
  if String.prefix lit s then Some (v, drop_chars (String.length lit) s) else None.

Fixpoint parse_value (fuel : nat) (s : string) : option (JValue * string) :=
  match fuel with
  | O => None
  | S fuel' =>
      match s with
      | "" => None
      | String c s' =>
          match N_of_ascii c with
          | 110 => expect "null" JNull s
          | 116 => expect "true" (JBool true) s
          | 102 => expect "false" (JBool false) s
          | 34 => '(body, rest) ← parse_chars s'; Some (JStr body, rest)
          | 91 =>
              match skip_ws s' with
              | String c1 rest =>
                  if (N_of_ascii c1 =? 93)%N then Some (JArr [], rest)
                  else '(vs, rest') ← parse_elements fuel' (skip_ws s');
                       Some (JArr vs, rest')
              | "" => None
              end
          | 123 =>
              match skip_ws s' with
              | String c1 rest =>
                  if (N_of_ascii c1 =? 125)%N then Some (JObj [], rest)
                  else '(ms, rest') ← parse_members fuel' (skip_ws s');
                       Some (JObj ms, rest')
              | "" => None
              end
          | _ => '(n, rest) ← parse_number s; Some (JNum n, rest)
          end%N
      end
  end
with parse_elements (fuel : nat) (s : string) : option (list JValue * string) :=
  match fuel with
  | O => None
  | S fuel' =>
      '(v, r) ← parse_value fuel' s;
      match skip_ws r with
      | String c r' =>
          match N_of_ascii c with
          | 44 => '(vs, r'') ← parse_elements fuel' (skip_ws r'); Some (v :: vs, r'')
          | 93 => Some ([v], r')
          | _ => None
          end%N
      | "" => None
      end
  end
with parse_members (fuel : nat) (s : string)
  : option (list (string * JValue) * string) :=
  match fuel with
  | O => None
  | S fuel' =>
      match s with
      | String q s' =>
          if negb (N_of_ascii q =? 34)%N then None
          else
            '(k, r0) ← parse_chars s';
            match skip_ws r0 with
            | String colon r1 =>
                if negb (N_of_ascii colon =? 58)%N then None
                else
                  '(v, r) ← parse_value fuel' (skip_ws r1);
                  match skip_ws r with
                  | String c r' =>
                      match N_of_ascii c with
                      | 44 => '(ms, r'') ← parse_members fuel' (skip_ws r');
                              Some (add_member k v ms, r'')
                      | 125 => Some ([(k, v)], r')
                      | _ => None
                      end%N
                  | "" => None
                  end
            | "" => None
            end
      | "" => None
      end
  end.

(** [JSON.parse]: one value surrounded by optional white space. *)
Definition JSON_parse (text : string) : option JValue :=
  '(v, rest) ← parse_value (2 * String.length text + 2) (skip_ws text);
  match skip_ws rest with
  | "" => Some v
  | _ => None
  end.

(** ** Vocabulary of the codec round trip *)

(** A value as JavaScript can hold it: no object has the same key twice. *)
Fixpoint distinct_keys (ms : list (string * JValue)) : bool :=
  match ms with
  | [] => true
  | (k, _) :: ms' =>
      match assoc_get k ms' with
      | Some _ => false
      | None => distinct_keys ms'
      end
  end.

Fixpoint canonical (v : JValue) : bool :=
  match v with
  | JArr l => forallb canonical l
  | JObj ms =>
      distinct_keys ms
      && forallb (fun kv : string * JValue => let '(_, x) := kv in canonical x) ms
  | _ => true
  end.

(** The recursion depth the parser needs for a value. *)
Fixpoint fuel_of (v : JValue) : nat :=
  match v with
  | JArr l => S (list_sum (map (fun x => S (fuel_of x)) l))
  | JObj ms =>
      S (list_sum (map (fun kv : string * JValue =>
                          let '(_, x) := kv in S (fuel_of x)) ms))
  | _ => 1%nat
  end.

(** [pat] occurs somewhere in [s]. *)
Fixpoint occurs (pat s : string) : bool :=
  String.prefix pat s
  || match s with
     | "" => false
     | String _ s' => occurs pat s'
     end.

Fixpoint all_spaces (s : string) : bool :=
  match s with
  | "" => true
  | String c s' => (N_of_ascii c =? 32)%N && all_spaces s'
  end.

(** What may follow a number literal without being read as part of it. *)
Definition ends_number (t : string) : bool :=
  match t with
  | "" => true
  | String c _ =>
      negb (is_digit c)
      && match N_of_ascii c with
         | 46 | 69 | 101 => false
         | _ => true
         end%N
  end.

(** The code units a serialized value can begin with. *)
Definition starts_value (c : ascii) : bool :=
  is_digit c
  || match N_of_ascii c with
     | 45 | 34 | 91 | 123 | 110 | 116 | 102 => true
     | _ => false
     end%N.

(** A member of an object as [stringify_at] writes it. *)
Abbreviation member_at inner :=
  (fun kv : string * JValue =>
     let '(k, x) := kv in QuoteJSONString k +:+ ": " +:+ stringify_at inner x).

(** The parser reads back what the serializer wrote for [v], at any
    indentation and in front of any text that does not continue a number,
    as soon as it has the recursion depth for [v]. *)
Definition reads_back (v : JValue) : Prop :=
  forall ind t fuel,
    all_spaces ind = true -> ends_number t = true -> (fuel_of v <= fuel)%nat ->
    parse_value fuel (stringify_at ind v +:+ t) = Some (v, t).

(** ** Coercions of [(currentGkn.turnCount || 0) + 1] *)

Definition js_or (o : option JValue) (d : JValue) : JValue :=
  match o with
  | Some v => if truthy v then v else d
  | None => d
  end.

(** [String(v)]; inside [Array.prototype.join] a [null] element is the
    empty string. *)
Fixpoint js_toString (v : JValue) : string :=
  match v with
  | JNull => "null"
  | JBool true => "true"
  | JBool false => "false"
  | JNum n => pretty n
  | JStr s => s
  | JArr l =>
      (fix join (l : list JValue) : string :=
         match l with
         | [] => ""
         | x :: l' =>
             (match x with JNull => "" | _ => js_toString x end)
             +:+ (match l' with [] => "" | _ => "," +:+ join l' end)
         end) l
  | JObj _ => "[object Object]"
  end.

(** A number is a double.  The integers a double holds are the multiples
    of [2^e] with a significand of at most 53 bits, so every integer up to
    [2^53] in magnitude and, beyond, one in [2^e] of them.  [to_double]
    rounds an integer to the nearest of them, a tie to the even
    significand, as an arithmetic operation rounds its exact result. *)
Definition to_double (z : Z) : Z :=
  let a := Z.abs z in
  if a <? 2 ^ 53 then z
  else
    let e := Z.log2 a - 52 in
    let q := Z.shiftr a e in
    let r := a - Z.shiftl q e in
    let half := Z.shiftl 1 (e - 1) in
    let q' := if (half <? r) || ((r =? half) && Z.odd q) then q + 1 else q in
    Z.sgn z * Z.shiftl q' e.

(** [v + 1]: numeric addition on primitives that convert to a number,
    string concatenation otherwise.  The sum of two doubles is the exact
    sum rounded, so from [2^53] on adding 1 no longer changes the value. *)
Definition js_plus_one (v : JValue) : JValue :=
  match v with
  | JNum n => JNum (to_double (n + 1))
  | JBool b => JNum ((if b then 1 else 0) + 1)
  | JNull => JNum 1
  | JStr s => JStr (s +:+ "1")
  | JArr _ | JObj _ => JStr (js_toString v +:+ "1")
  end.

(** [target.k = v] in strict mode (the compiled module is strict): an
    object gets or replaces the property; an array accepts a named property
    that is not one of its elements and is lost when the value is
    serialized; a primitive throws a [TypeError]. *)
Definition set_prop (target : JValue) (k : string) (v : JValue) : option JValue :=
  match target with
  | JObj ms => Some (JObj (assoc_set k v ms))
  | JArr l => Some (JArr l)
  | _ => None
  end.

(** ** The session store, the language model and the handlers' monad *)

(** The session document of [types/gameState.ts]. *)
Record GameState : Type := {
  sessionId : string;
  userId : string;
  initialHook : JValue;
  lastModified : Z;
  gkn : JValue
}.

(** What a request can observe and change: the [game_sessions] collection
    and the prompts sent to the model so far (newest first). *)
Record World : Type := {
  game_sessions : gmap string GameState;
  prompts_sent : list string
}.

(** What the surroundings decide during one request: the model's reply to a
    prompt ([None]: the call or [response.text()] throws), the identifier
    [doc()] allocates, the clock, and whether the store accepts the write. *)
Record Env : Type := {
  generateContent : string -> option string;
  new_doc_id : string;
  Date_now : Z;
  write_ok : bool
}.

Inductive FunctionsErrorCode : Type :=
| invalid_argument
| not_found
| permission_denied
| internal.

Record HttpsError : Type := {
  code : FunctionsErrorCode;
  message : string
}.

Definition Handler (A : Type) : Type := World -> World * (HttpsError + A).

Definition ret {A} (a : A) : Handler A := fun w => (w, inr a).

Definition throw {A} (c : FunctionsErrorCode) (msg : string) : Handler A :=
  fun w => (w, inl {| code := c; message := msg |}).

Definition bind {A B} (m : Handler A) (k : A -> Handler B) : Handler B :=
  fun w =>
    match m w with
    | (w', inl e) => (w', inl e)
    | (w', inr a) => k a w'
    end.

Declare Scope handler_scope.
Delimit Scope handler_scope with handler.
Notation "x <~ m ;; k" := (bind m (fun x => k))
  (at level 100, m at next level, right associativity) : handler_scope.

(** [db.collection("game_sessions").doc(id)] and [sessionRef.get()], for an
    id that addresses a document and a read that succeeds.  The store's
    library refuses to build a reference from an id that is no document
    path (such as [a/b]) with an error that no handler catches; that
    outcome, like a failing read, is not one of this model's. *)
Definition doc_get (id : string) : Handler (option GameState) :=
  fun w => (w, inr (game_sessions w !! id)).

(** [model.generateContent(prompt)] followed by [result.response.text()] *)
Definition generate (env : Env) (prompt : string) : Handler (option string) :=
  fun w =>
    ({| game_sessions := game_sessions w; prompts_sent := prompt :: prompts_sent w |},
     inr (generateContent env prompt)).

(** [newSessionRef.set(doc)]: [false] when the write throws. *)
Definition doc_set (env : Env) (id : string) (doc : GameState) : Handler bool :=
  fun w =>
    if write_ok env
    then ({| game_sessions := <[id := doc]> (game_sessions w);
             prompts_sent := prompts_sent w |}, inr true)
    else (w, inr false).

(** [sessionRef.update({ gkn: g, lastModified: t })]: the two named fields
    of the existing document are replaced. *)
Definition update_fields (g : JValue) (t : Z) (doc : GameState) : GameState :=
  {| sessionId := sessionId doc;
     userId := userId doc;
     initialHook := initialHook doc;
     lastModified := t;
     gkn := g |}.

Definition doc_update (env : Env) (id : string) (g : JValue) (t : Z) : Handler bool :=
  fun w =>
    if write_ok env
    then ({| game_sessions := alter (update_fields g t) id (game_sessions w);
             prompts_sent := prompts_sent w |}, inr true)
    else (w, inr false).

(** ** The handlers *)

Section Handlers.

(** The two fixed texts spliced into every prompt ([MASTER_PROMPT_V11], the
    storyteller's instructions, and [GKN_SCHEMA_DEFINITION], the schema shown
    to the model) are prose only; the handlers never inspect them. *)
Variable MASTER_PROMPT_V11 : string.
Variable GKN_SCHEMA_DEFINITION : string.

Definition getStoryGeneratorPrompt (seed genre playerName : string) : string :=
  MASTER_PROMPT_V11 +:+ "
### YOUR TASK ###
Based on the User Request below, you must generate a single, raw JSON object. This object MUST NOT be wrapped in markdown backticks. The JSON object must contain two top-level keys: "
  +:+ dq +:+ "gkn" +:+ dq +:+ " and " +:+ dq +:+ "initialHook" +:+ dq +:+ ".

1.  **" +:+ dq +:+ "gkn" +:+ dq +:+ "**: The value for this key must be a valid JSON object that perfectly matches the `GameStateGKN` schema provided below. This is your GKN-0.
2.  **" +:+ dq +:+ "initialHook" +:+ dq +:+ "**: The value for this key must be a single string containing a compelling, intriguing opening paragraph to kick off the story for the player.

**GKN SCHEMA (for the " +:+ dq +:+ "gkn" +:+ dq +:+ " object):**
" +:+ GKN_SCHEMA_DEFINITION +:+ "

### USER REQUEST ###
-   **Genre:** " +:+ dq +:+ genre +:+ dq +:+ "
-   **Story Seed:** " +:+ dq +:+ seed +:+ dq +:+ "
-   **Player Name:** " +:+ dq +:+ playerName +:+ dq +:+ "

### YOUR OUTPUT (A SINGLE, RAW JSON OBJECT ONLY) ###
".

(** The state codec's encoder is the [JSON.stringify(gkn, null, 2)] at the
    head of this function. *)
Definition getGameMasterPrompt (gkn : JValue) (playerInput : string) : string :=
  let gknJson := JSON_stringify gkn in
  MASTER_PROMPT_V11 +:+ "
### YOUR TASK ###
You are the Game Master (GM). Your goal is to process the player's action within the context of the current GKN.
1.  **Analyze the Current GKN:** Review the provided `currentGkn` JSON. This is the single source of truth for the entire game world.
2.  **Analyze the Player's Input:** Understand the player's intent from the `playerInput` string.
3.  **Apply World Logic & Rules:**
    * Is the action possible? What is the logical outcome?
    * How do NPCs react based on their personality and agenda?
    * Advance the world state and NPC plans if appropriate.
4.  **Create an Updated GKN:** Generate a complete, new JSON object representing the GKN *after* the player's action. This new object MUST be a full GKN object. **Do not just send the changed parts.**
5.  **Write the Narrative:** Describe the outcome of the player's action in a rich, engaging, and descriptive paragraph. This is what the player will read.
6.  **Respond in JSON:** Your final output MUST be a single, raw JSON object with two top-level keys: `narrative` and `updatedGkn`.

### CURRENT GKN ###
" +:+ gknJson +:+ "

### PLAYER INPUT ###
" +:+ dq +:+ playerInput +:+ dq +:+ "

### YOUR OUTPUT (A SINGLE, RAW JSON OBJECT ONLY) ###
".

Definition nonempty (s : string) : bool := negb (String.eqb s "").

(** [playerName || d] and [auth?.uid || d] *)
Definition or_default (o : option string) (d : string) : string :=
  match o with
  | Some s => if nonempty s then s else d
  | None => d
  end.

Record StoryData : Type := {
  seed : string;
  genre : string;
  playerName : option string
}.

Record StoryResult : Type := {
  created_sessionId : string;
  created_initialHook : JValue
}.

(** The body of the first [try] of [generateStoryLogic] after the reply has
    arrived; [None] stands for any exception. *)
Definition decode_story (reply : option string) : option (JValue * JValue) :=
  responseText ← reply;
  let cleanedJson := clean_response responseText in
  responseObject ← JSON_parse cleanedJson;
  g ← get_prop responseObject "gkn";
  h ← get_prop responseObject "initialHook";
  if negb (truthy_opt g) || negb (truthy_opt h) then None
  else
    gknForDb ← g;
    initialHook ← h;
    Some (gknForDb, initialHook).

Local Open Scope handler_scope.

Definition generateStoryLogic (env : Env) (data : StoryData) (auth : option string)
  : Handler StoryResult :=
  if negb (nonempty (seed data)) || negb (nonempty (genre data)) then
    throw invalid_argument "The function must be called with a 'seed' and 'genre'."
  else
    reply <~ generate env
               (getStoryGeneratorPrompt (seed data) (genre data)
                  (or_default (playerName data) "Kaelen")) ;;
    match decode_story reply with
    | None => throw internal "Failed to generate story world."
    | Some (gknForDb, hook) =>
        let id := new_doc_id env in
        let newSession :=
          {| sessionId := id;
             userId := or_default auth "anonymous";
             initialHook := hook;
             gkn := gknForDb;
             lastModified := Date_now env |} in
        ok <~ doc_set env id newSession ;;
        if ok : bool then ret {| created_sessionId := id; created_initialHook := hook |}
        else throw internal "Failed to save new game session."
    end.

Record TurnData : Type := {
  turn_sessionId : string;
  playerInput : string
}.

Record TurnResult : Type := {
  narrative : JValue
}.

Definition OOC_BANNER : string := "--- OOC GKN State Inspector ---" +:+ nl +:+ nl.

Definition FALLBACK_NARRATIVE : string :=
  "A strange energy flickers in the air, and your action seems to have no effect. The world remains as it was. (The game's AI encountered an error.)".

Definition is_ooc (input : string) : bool :=
  startsWith input "[" && endsWith input "]".

(** [gameSession.userId !== 'anonymous' && gameSession.userId !== auth?.uid] *)
Definition not_owner (owner : string) (auth : option string) : bool :=
  negb (String.eqb owner "anonymous")
  && match auth with
     | Some uid => negb (String.eqb owner uid)
     | None => true
     end.

(** The body of the first [try] of [processPlayerTurnLogic] after the reply
    has arrived. *)
Definition decode_turn (reply : option string) : option (JValue * JValue) :=
  responseText ← reply;
  let cleanedJson := clean_response responseText in
  responseObject ← JSON_parse cleanedJson;
  n ← get_prop responseObject "narrative";
  u ← get_prop responseObject "updatedGkn";
  if negb (truthy_opt n) || negb (truthy_opt u) then None
  else
    narrativeResponse ← n;
    updatedGkn ← u;
    Some (narrativeResponse, updatedGkn).

(** [updatedGkn.turnCount = (currentGkn.turnCount || 0) + 1], the first
    statement of the second [try]. *)
Definition stamp_turnCount (currentGkn updatedGkn : JValue) : option JValue :=
  tc ← get_prop currentGkn "turnCount";
  set_prop updatedGkn "turnCount" (js_plus_one (js_or tc (JNum 0))).

Definition processPlayerTurnLogic (env : Env) (data : TurnData) (auth : option string)
  : Handler TurnResult :=
  let id := turn_sessionId data in
  let input := playerInput data in
  if negb (nonempty id) || negb (nonempty input) then
    throw invalid_argument
      "The function must be called with a 'sessionId' and 'playerInput'."
  else
    sessionDoc <~ doc_get id ;;
    match sessionDoc with
    | None => throw not_found ("Game session with ID " +:+ id +:+ " not found.")
    | Some gameSession =>
        if not_owner (userId gameSession) auth then
          throw permission_denied
            "You do not have permission to access this game session."
        else if is_ooc input then
          ret {| narrative := JStr (OOC_BANNER +:+ JSON_stringify (gkn gameSession)) |}
        else
          let currentGkn := gkn gameSession in
          reply <~ generate env (getGameMasterPrompt currentGkn input) ;;
          match decode_turn reply with
          | None => ret {| narrative := JStr FALLBACK_NARRATIVE |}
          | Some (narrativeResponse, updatedGkn) =>
              match stamp_turnCount currentGkn updatedGkn with
              | None => throw internal "Failed to save the updated game state."
              | Some stamped =>
                  ok <~ doc_update env id stamped (Date_now env) ;;
                  if ok : bool then ret {| narrative := narrativeResponse |}
                  else throw internal "Failed to save the updated game state."
              end
          end
    end.

(** ** Vocabulary of the properties *)

(** The ways the model's reply can fail to decode for the key pair
    [k1], [k2]: the call throws, the cleaned text is not JSON, or a required
    key is absent from the parsed value. *)
Definition has_key (v : JValue) (k : string) : Prop :=
  exists x, get_prop v k = Some (Some x).

Inductive OracleFailure (k1 k2 : string) : option string -> Prop :=
| transport_error : OracleFailure k1 k2 None
| malformed_response text :
    JSON_parse (clean_response text) = None ->
    OracleFailure k1 k2 (Some text)
| incomplete_response text v :
    JSON_parse (clean_response text) = Some v ->
    ~ has_key v k1 \/ ~ has_key v k2 ->
    OracleFailure k1 k2 (Some text).

(** Both decoders are the same pipeline over a pair of keys. *)
Definition decode_pair (k1 k2 : string) (reply : option string)
  : option (JValue * JValue) :=
  responseText ← reply;
  responseObject ← JSON_parse (clean_response responseText);
  a ← get_prop responseObject k1;
  b ← get_prop responseObject k2;
  if negb (truthy_opt a) || negb (truthy_opt b) then None
  else x ← a; y ← b; Some (x, y).

(** A required key that is present with a falsy value. *)
Definition falsy_at (v : JValue) (k : string) : Prop :=
  exists x, get_prop v k = Some (Some x) /\ truthy x = false.

(** The stored turn counter and time stamp of a session. *)
Definition turnCount_of (g : JValue) : option Z :=
  match g with
  | JObj ms => match assoc_get "turnCount" ms with
               | Some (JNum n) => Some n
               | _ => None
               end
  | _ => None
  end.

Definition turnCount_at (w : World) (id : string) : option Z :=
  doc ← game_sessions w !! id; turnCount_of (gkn doc).

Definition lastModified_at (w : World) (id : string) : option Z :=
  lastModified <$> game_sessions w !! id.

(** A committed turn: the request is not out-of-character, the model's
    reply decodes to a narrative and an updated state object, and the call
    returns normally. *)
Definition committed (env : Env) (data : TurnData) (auth : option string)
    (w w' : World) : Prop :=
  is_ooc (playerInput data) = false /\
  (exists doc n ms,
      game_sessions w !! turn_sessionId data = Some doc /\
      decode_turn (generateContent env
                     (getGameMasterPrompt (gkn doc) (playerInput data)))
      = Some (n, JObj ms)) /\
  exists r, processPlayerTurnLogic env data auth w = (w', inr r).


(** The data-model invariant on a state: [player.locationId] is a key of
    [world.locations]. *)
Definition field (v : JValue) (k : string) : option JValue :=
  match v with
  | JObj ms => assoc_get k ms
  | _ => None
  end.

Definition location_valid (g : JValue) : bool :=
  match field g "player" ≫= (fun p => field p "locationId"),
        field g "world" ≫= (fun x => field x "locations") with
  | Some (JStr loc), Some (JObj locs) =>
      match assoc_get loc locs with Some _ => true | None => false end
  | _, _ => false
  end.

(** A reply that frames [narrative] and the encoded state [g] under the two
    keys the turn handler reads. *)
Definition echo_reply (text : string) (g : JValue) : string :=
  "{" +:+ dq +:+ "narrative" +:+ dq +:+ ": " +:+ QuoteJSONString text
  +:+ ", " +:+ dq +:+ "updatedGkn" +:+ dq +:+ ": " +:+ JSON_stringify g +:+ "}".

End Handlers.

(** ** Sample data

    A small world in the shape of [GameState['gkn']], two stored sessions
    and stub language models.  The prompt texts of the samples are empty:
    the stubs do not look at their prompt. *)

Module Samples.

Definition library : JValue :=
  JObj [("id", JStr "library"); ("name", JStr "Library");
        ("description", JStr "Dusty shelves."); ("exits", JObj []);
        ("items", JArr [])].

Definition sample_gkn (name loc : string) (inventory : list JValue) (turnCount : Z)
  : JValue :=
  JObj [("player", JObj [("name", JStr name); ("locationId", JStr loc);
                         ("inventory", JArr inventory)]);
        ("world", JObj [("genre", JStr "Adventure");
                        ("coreConflict", JStr "A secret.");
                        ("locations", JObj [("library", library)]);
                        ("items", JObj []);
                        ("npcs", JObj []);
                        ("fluidCountdown",
                         JObj [("description", JStr "The shelves close in.");
                               ("stages", JArr [JStr "a"; JStr "b"; JStr "c"]);
                               ("currentStage", JNum 0)]);
                        ("discoverableInfo", JObj []);
                        ("storyFlags", JObj [])]);
        ("turnCount", JNum turnCount)].

Definition gkn0 : JValue := sample_gkn "Alex" "library" [] 0.

Definition anon_session : GameState :=
  {| sessionId := "s1"; userId := "anonymous";
     initialHook := JStr "The door creaks."; lastModified := 100; gkn := gkn0 |}.

Definition alice_session : GameState :=
  {| sessionId := "s2"; userId := "alice";
     initialHook := JStr "Rain on the roof."; lastModified := 150; gkn := gkn0 |}.

Definition world0 : World :=
  {| game_sessions := <["s2" := alice_session]> {["s1" := anon_session]};
     prompts_sent := [] |}.

Definition empty_world : World := {| game_sessions := ∅; prompts_sent := [] |}.

Definition stub (reply : option string) (now : Z) : Env :=
  {| generateContent := fun _ => reply; new_doc_id := "s3"; Date_now := now;
     write_ok := true |}.

Definition look : TurnData := {| turn_sessionId := "s1"; playerInput := "look" |}.



(** A reply to the story prompt framed under [gkn] and [initialHook]. *)
Definition story_reply (g : JValue) (hook : string) : string :=
  "{" +:+ dq +:+ "gkn" +:+ dq +:+ ": " +:+ JSON_stringify g
  +:+ ", " +:+ dq +:+ "initialHook" +:+ dq +:+ ": " +:+ QuoteJSONString hook +:+ "}".

Definition library_story : StoryData :=
  {| seed := "A dusty old library with a secret to hide."; genre := "Adventure";
     playerName := Some "Alex" |}.

(** A state that starts at turn 5 with a sword in the inventory. *)
Definition armed_gkn : JValue := sample_gkn "Alex" "library" [JStr "sword"] 5.

(** A state whose player stands in a location the world does not have. *)
Definition lost_gkn : JValue := sample_gkn "Alex" "cellar" [] 0.

(** A state with a code fence inside a string. *)
Definition fenced_gkn : JValue := sample_gkn "Al```ex" "library" [] 0.

(** A reply to the story prompt that lacks [initialHook]. *)
Definition gkn_only_reply : string := "{ " +:+ dq +:+ "gkn" +:+ dq +:+ ": {} }".

(** The same text with every backquote written as its [\u0060] escape, as
    a model may well write it. *)
Fixpoint escape_backquotes (s : string) : string :=
  match s with
  | "" => ""
  | String c s' =>
      (if (N_of_ascii c =? 96)%N then "\u0060" else String c "")
      +:+ escape_backquotes s'
  end.

Definition fenced_world : World :=
  {| game_sessions :=
       {["s1" := {| sessionId := "s1"; userId := "anonymous";
                    initialHook := JStr "The door creaks.";
                    lastModified := 100; gkn := fenced_gkn |}]};
     prompts_sent := [] |}.

End Samples.


(** ** The callable wrappers and the page that calls them

    [createNewStory] and [processPlayerTurn] hand [request.data] and
    [request.auth] to the two handlers.  The page script of [index.html]
    builds the request data from its forms, calls the wrappers without
    signing in, and shows the outcome.  The callable transport is taken to
    deliver the handler's result, or its [HttpsError], unchanged. *)

Section Page.

Variable MASTER_PROMPT_V11 : string.
Variable GKN_SCHEMA_DEFINITION : string.

(** Request data as the page builds it: an object whose members are
    strings or [null] ([FormData.get] and [currentSessionId] give nothing
    else). *)
Definition CallData : Type := list (string * option string).

(** [data.k]: outer [None] is [undefined], [Some None] is [null]. *)
Fixpoint wire_get (k : string) (data : CallData) : option (option string) :=
  match data with
  | [] => None
  | (k', v) :: data' => if String.eqb k k' then Some v else wire_get k data'
  end.

(** A destructured member at the type the handlers declare.  [undefined]
    and [null] are falsy like the empty string, and the handlers test a
    required member for truthiness before any other use. *)
Definition required_text (m : option (option string)) : string :=
  match m with
  | Some (Some s) => s
  | _ => ""
  end.

Definition optional_text (m : option (option string)) : option string :=
  match m with
  | Some (Some s) => Some s
  | _ => None
  end.

(** [onCall(request => generateStoryLogic(request.data, request.auth))]
    with [const { seed, genre, playerName } = data]. *)
Definition createNewStory (env : Env) (request_data : CallData)
    (request_auth : option string) : Handler StoryResult :=
  generateStoryLogic MASTER_PROMPT_V11 GKN_SCHEMA_DEFINITION env
    {| seed := required_text (wire_get "seed" request_data);
       genre := required_text (wire_get "genre" request_data);
       playerName := optional_text (wire_get "playerName" request_data) |}
    request_auth.

(** [onCall(request => processPlayerTurnLogic(request.data, request.auth))]
    with [const { sessionId, playerInput } = data]. *)
Definition processPlayerTurn (env : Env) (request_data : CallData)
    (request_auth : option string) : Handler TurnResult :=
  processPlayerTurnLogic MASTER_PROMPT_V11 env
    {| turn_sessionId := required_text (wire_get "sessionId" request_data);
       playerInput := required_text (wire_get "playerInput" request_data) |}
    request_auth.

(** What the script reads and writes of the document: its one variable and
    the elements it touches.  [narrativeOutput] lists the paragraphs of
    [#narrative-output], oldest first, each with its class and text.  The
    input focus, the scroll position and the console are left out, and a
    submission runs to its end before the next event is taken. *)
Record Page : Type := {
  currentSessionId : option string;
  sessionIdDisplay : string;
  newGameScreen_hidden : bool;
  gameScreen_hidden : bool;
  loadingIndicator_hidden : bool;
  createStoryBtn_disabled : bool;
  createStoryBtn_text : string;
  submitTurnBtn_disabled : bool;
  playerInput_disabled : bool;
  playerInput_value : string;
  narrativeOutput : list (string * string)
}.

Definition set_loading (hidden : bool) (p : Page) : Page :=
  {| currentSessionId := currentSessionId p;
     sessionIdDisplay := sessionIdDisplay p;
     newGameScreen_hidden := newGameScreen_hidden p;
     gameScreen_hidden := gameScreen_hidden p;
     loadingIndicator_hidden := hidden;
     createStoryBtn_disabled := createStoryBtn_disabled p;
     createStoryBtn_text := createStoryBtn_text p;
     submitTurnBtn_disabled := submitTurnBtn_disabled p;
     playerInput_disabled := playerInput_disabled p;
     playerInput_value := playerInput_value p;
     narrativeOutput := narrativeOutput p |}.

Definition set_createStoryBtn (disabled : bool) (text : string) (p : Page) : Page :=
  {| currentSessionId := currentSessionId p;
     sessionIdDisplay := sessionIdDisplay p;
     newGameScreen_hidden := newGameScreen_hidden p;
     gameScreen_hidden := gameScreen_hidden p;
     loadingIndicator_hidden := loadingIndicator_hidden p;
     createStoryBtn_disabled := disabled;
     createStoryBtn_text := text;
     submitTurnBtn_disabled := submitTurnBtn_disabled p;
     playerInput_disabled := playerInput_disabled p;
     playerInput_value := playerInput_value p;
     narrativeOutput := narrativeOutput p |}.

Definition set_turn_controls (disabled : bool) (p : Page) : Page :=
  {| currentSessionId := currentSessionId p;
     sessionIdDisplay := sessionIdDisplay p;
     newGameScreen_hidden := newGameScreen_hidden p;
     gameScreen_hidden := gameScreen_hidden p;
     loadingIndicator_hidden := loadingIndicator_hidden p;
     createStoryBtn_disabled := createStoryBtn_disabled p;
     createStoryBtn_text := createStoryBtn_text p;
     submitTurnBtn_disabled := disabled;
     playerInput_disabled := disabled;
     playerInput_value := playerInput_value p;
     narrativeOutput := narrativeOutput p |}.

Definition set_playerInput_value (value : string) (p : Page) : Page :=
  {| currentSessionId := currentSessionId p;
     sessionIdDisplay := sessionIdDisplay p;
     newGameScreen_hidden := newGameScreen_hidden p;
     gameScreen_hidden := gameScreen_hidden p;
     loadingIndicator_hidden := loadingIndicator_hidden p;
     createStoryBtn_disabled := createStoryBtn_disabled p;
     createStoryBtn_text := createStoryBtn_text p;
     submitTurnBtn_disabled := submitTurnBtn_disabled p;
     playerInput_disabled := playerInput_disabled p;
     playerInput_value := value;
     narrativeOutput := narrativeOutput p |}.

Definition append_paragraph (cssClass text : string) (p : Page) : Page :=
  {| currentSessionId := currentSessionId p;
     sessionIdDisplay := sessionIdDisplay p;
     newGameScreen_hidden := newGameScreen_hidden p;
     gameScreen_hidden := gameScreen_hidden p;
     loadingIndicator_hidden := loadingIndicator_hidden p;
     createStoryBtn_disabled := createStoryBtn_disabled p;
     createStoryBtn_text := createStoryBtn_text p;
     submitTurnBtn_disabled := submitTurnBtn_disabled p;
     playerInput_disabled := playerInput_disabled p;
     playerInput_value := playerInput_value p;
     narrativeOutput := narrativeOutput p ++ [(cssClass, text)] |}.

(** The success branch of the new-game handler up to the two messages:
    the session is remembered and displayed and the screens are swapped. *)
Definition enter_game (id : string) (p : Page) : Page :=
  {| currentSessionId := Some id;
     sessionIdDisplay := "Session ID: " +:+ id;
     newGameScreen_hidden := true;
     gameScreen_hidden := false;
     loadingIndicator_hidden := loadingIndicator_hidden p;
     createStoryBtn_disabled := createStoryBtn_disabled p;
     createStoryBtn_text := createStoryBtn_text p;
     submitTurnBtn_disabled := submitTurnBtn_disabled p;
     playerInput_disabled := playerInput_disabled p;
     playerInput_value := playerInput_value p;
     narrativeOutput := narrativeOutput p |}.

Definition showLoading (isLoading forCreation : bool) (p : Page) : Page :=
  if isLoading then
    let p := set_loading false p in
    if forCreation then set_createStoryBtn true "Creating World..." p
    else set_turn_controls true p
  else
    let p := set_loading true p in
    if forCreation then set_createStoryBtn false "Begin Your Story" p
    else set_turn_controls false p.

(** [p.textContent = v]: [null] clears the text, anything else is
    converted to a string. *)
Definition dom_text (v : JValue) : string :=
  match v with
  | JNull => ""
  | _ => js_toString v
  end.

Definition addMessageToNarrative (text : JValue) (type : string) (p : Page) : Page :=
  if String.eqb type "player" then
    append_paragraph "player-text" ("> " +:+ js_toString text) p
  else if String.eqb type "system" then
    append_paragraph "system-text" (dom_text text) p
  else if String.eqb type "ooc" then
    append_paragraph "ooc-text" (dom_text text) p
  else
    append_paragraph "narrative-text" (dom_text text) p.

Definition system_error (e : HttpsError) : JValue :=
  JStr ("A system error occurred: " +:+ message e).

(** The [submit] listener of [#new-game-form], run against the server
    world; the three strings are the values of the form's fields. *)
Definition newGameForm_submit (env : Env) (playerName storySeed genre : string)
    (pw : Page * World) : Page * World :=
  let '(p, w) := pw in
  let p := showLoading true true p in
  let data : CallData :=
    [("playerName", Some playerName); ("storySeed", Some storySeed);
     ("genre", Some genre)] in
  let '(w', result) := createNewStory env data None w in
  let p :=
    match result with
    | inr r =>
        let p := enter_game (created_sessionId r) p in
        let p := addMessageToNarrative
                   (JStr ("Story created. Genre: " +:+ genre +:+ ".")) "system" p in
        addMessageToNarrative (created_initialHook r) "narrative" p
    | inl error => addMessageToNarrative (system_error error) "system" p
    end in
  (showLoading false true p, w').

(** The [submit] listener of [#player-input-form]. *)
Definition playerInputForm_submit (env : Env) (pw : Page * World) : Page * World :=
  let '(p, w) := pw in
  let input := trim (playerInput_value p) in
  if negb (nonempty input) then (p, w)
  else
    let sessionId := currentSessionId p in
    let p := showLoading true false p in
    let p := addMessageToNarrative (JStr input) "player" p in
    let p := set_playerInput_value "" p in
    let data : CallData := [("sessionId", sessionId); ("playerInput", Some input)] in
    let '(w', result) := processPlayerTurn env data None w in
    let p :=
      match result with
      | inr r =>
          let isOOC := startsWith input "[" && endsWith input "]" in
          addMessageToNarrative (narrative r) (if isOOC then "ooc" else "narrative") p
      | inl error => addMessageToNarrative (system_error error) "system" p
      end in
    (showLoading false false p, w').

(** What can happen to the page: the two forms are submitted, each request
    meeting its own surroundings, and the player types into the input. *)
Inductive PageEvent : Type :=
| SubmitNewGame (env : Env) (playerName storySeed genre : string)
| TypeInput (text : string)
| SubmitTurn (env : Env).

Definition page_step (pw : Page * World) (ev : PageEvent) : Page * World :=
  match ev with
  | SubmitNewGame env playerName storySeed genre =>
      newGameForm_submit env playerName storySeed genre pw
  | TypeInput text => (set_playerInput_value text (fst pw), snd pw)
  | SubmitTurn env => playerInputForm_submit env pw
  end.

Definition page_run (events : list PageEvent) (pw : Page * World) : Page * World :=
  fold_left page_step events pw.

(** ** Vocabulary of the further properties *)

(** What the handlers keep true of every stored session: the document
    carries its own key, has an owner, and its opening text and state are
    truthy. *)
Definition well_kept (w : World) : Prop :=
  forall id doc,
    game_sessions w !! id = Some doc ->
    sessionId doc = id
    /\ nonempty (userId doc) = true
    /\ truthy (initialHook doc) = true
    /\ truthy (gkn doc) = true.

(** A reply wrapped in a [json] code fence, each marker on a line of its
    own. *)
Definition fenced (body : string) : string :=
  "```json" +:+ nl +:+ body +:+ nl +:+ "```".

End Page.

Module MoreSamples.

Import Samples.

(** The page as it is loaded: the new-game screen showing, the game screen
    and the spinner hidden, nothing typed, no session. *)
Definition loaded_page : Page :=
  {| currentSessionId := None;
     sessionIdDisplay := "";
     newGameScreen_hidden := false;
     gameScreen_hidden := true;
     loadingIndicator_hidden := true;
     createStoryBtn_disabled := false;
     createStoryBtn_text := "Begin Your Story";
     submitTurnBtn_disabled := false;
     playerInput_disabled := false;
     playerInput_value := "";
     narrativeOutput := [] |}.

(** A page in the middle of the anonymous sample session, with text
    typed. *)
Definition playing_page (typed : string) : Page :=
  {| currentSessionId := Some "s1";
     sessionIdDisplay := "Session ID: s1";
     newGameScreen_hidden := true;
     gameScreen_hidden := false;
     loadingIndicator_hidden := true;
     createStoryBtn_disabled := false;
     createStoryBtn_text := "Begin Your Story";
     submitTurnBtn_disabled := false;
     playerInput_disabled := false;
     playerInput_value := typed;
     narrativeOutput := [("narrative-text", "The door creaks.")] |}.

Definition failing_store (reply : option string) (now : Z) : Env :=
  {| generateContent := fun _ => reply; new_doc_id := "s3"; Date_now := now;
     write_ok := false |}.

(** A state object that has lost its turn counter. *)
Definition uncounted_gkn : JValue :=
  JObj [("player", JObj [("name", JStr "Alex")])].

Definition uncounted_world : World :=
  {| game_sessions :=
       {["s1" := {| sessionId := "s1"; userId := "anonymous";
                    initialHook := JStr "The door creaks.";
                    lastModified := 100; gkn := uncounted_gkn |}]};
     prompts_sent := [] |}.

End MoreSamples.
(** ** The codec round trip

    What [JSON.stringify] writes, [JSON.parse] reads. *)

Section Codec.

Local Arguments String.append !_ _ / : simpl nomatch.

Lemma app_assoc (a b c : string) : (a +:+ b) +:+ c = a +:+ (b +:+ c).
Proof. induction a as [|x a IH]; simpl; congruence. Qed.

Lemma length_app (a b : string) :
  String.length (a +:+ b) = (String.length a + String.length b)%nat.
Proof. induction a as [|x a IH]; simpl; congruence. Qed.

(** *** String literals *)

Lemma parse_chars_quote_char c t :
  parse_chars (quote_char c +:+ t) = push_char c (parse_chars t).
Proof. destruct c as [[] [] [] [] [] [] [] []]; reflexivity. Qed.

Lemma parse_chars_quote_body s t :
  parse_chars (quote_body s +:+ dq +:+ t) = Some (s, t).
Proof.
  induction s as [|c s IH].
  - reflexivity.
  - cbn [quote_body]. rewrite app_assoc, parse_chars_quote_char, IH. reflexivity.
Qed.

(** *** Number literals *)

Lemma pretty_N_go_app x s t : pretty_N_go x s +:+ t = pretty_N_go x (s +:+ t).
Proof.
  revert s. induction (N.lt_wf_0 x) as [x _ IH]. intros s.
  destruct (N.eq_dec x 0%N) as [-> | Hx].
  - rewrite !pretty_N_go_0. reflexivity.
  - rewrite (pretty_N_go_step x s), (pretty_N_go_step x (s +:+ t)) by lia.
    rewrite IH; [reflexivity|]. apply N.div_lt; lia.
Qed.

Lemma is_digit_pretty_N_char d :
  (d < 10)%N ->
  is_digit (pretty_N_char d) = true
  /\ digit_val (pretty_N_char d) = Z.of_N d.
Proof.
  intros Hd.
  assert (d = 0 \/ d = 1 \/ d = 2 \/ d = 3 \/ d = 4 \/ d = 5 \/ d = 6 \/ d = 7
          \/ d = 8 \/ d = 9)%N as H by lia.
  repeat (destruct H as [-> | H]; [split; reflexivity|]). subst d. split; reflexivity.
Qed.

(** Reading the digits [pretty_N_go] writes shifts the accumulator by a
    power of ten and adds the number. *)
Lemma parse_digits_pretty_N_go x :
  exists p, forall acc s,
    parse_digits acc (pretty_N_go x s) = parse_digits (acc * p + Z.of_N x) s.
Proof.
  induction (N.lt_wf_0 x) as [x _ IH].
  destruct (N.eq_dec x 0%N) as [-> | Hx].
  - exists 1. intros acc s. rewrite pretty_N_go_0. f_equal. lia.
  - destruct (IH (x / 10)%N) as [p Hp]; [apply N.div_lt; lia|].
    exists (10 * p). intros acc s.
    rewrite pretty_N_go_step by lia. rewrite Hp. simpl.
    destruct (is_digit_pretty_N_char (x mod 10)%N) as [-> ->];
      [apply N.mod_lt; lia|].
    f_equal. pose proof (N.div_mod x 10%N). lia.
Qed.

(** A positive number is written with a leading digit other than zero. *)
Lemma pretty_N_go_head x s :
  (0 < x)%N ->
  exists c r, pretty_N_go x s = String c r
              /\ is_digit c = true /\ (N_of_ascii c =? 48)%N = false.
Proof.
  revert s. induction (N.lt_wf_0 x) as [x _ IH]. intros s Hx.
  rewrite pretty_N_go_step by exact Hx.
  destruct (N.eq_dec (x / 10)%N 0%N) as [Hz | Hnz].
  - rewrite Hz, pretty_N_go_0. eexists. eexists. split; [reflexivity|].
    assert (x < 10)%N as Hlt by (apply N.div_small_iff; [lia | exact Hz]).
    rewrite N.mod_small by exact Hlt.
    assert (x = 1 \/ x = 2 \/ x = 3 \/ x = 4 \/ x = 5 \/ x = 6 \/ x = 7
            \/ x = 8 \/ x = 9)%N as H by lia.
    repeat (destruct H as [-> | H]; [split; reflexivity|]). subst x.
    split; reflexivity.
  - apply IH; [apply N.div_lt; lia | apply N.neq_0_lt_0; exact Hnz].
Qed.

Lemma parse_nat_lit_pretty p t :
  ends_number t = true ->
  parse_nat_lit (pretty (Npos p) +:+ t) = Some (Zpos p, t).
Proof.
  intros Hstop. unfold pretty, pretty_N.
  destruct (decide (N.pos p = 0%N)) as [Hz | _]; [discriminate Hz|].
  rewrite pretty_N_go_app. cbn [String.append].
  destruct (pretty_N_go_head (Npos p) t) as (c & r & Hhead & Hdig & Hnz); [lia|].
  destruct (parse_digits_pretty_N_go (Npos p)) as [q Hq].
  pose proof (Hq 0 t) as Hall. rewrite Hhead in Hall |- *.
  unfold parse_nat_lit. rewrite Hdig, Hnz. simpl negb. cbv iota.
  simpl in Hall. rewrite Hdig in Hall. simpl in Hall.
  replace (10 * 0 + digit_val c) with (digit_val c) in Hall by lia.
  rewrite Hall. replace (0 * q + Z.pos p) with (Z.pos p) by lia.
  assert (parse_digits (Z.pos p) t = (Z.pos p, t)) as ->.
  { destruct t as [|d t]; [reflexivity|]. simpl in Hstop |- *.
    destruct (is_digit d); [discriminate Hstop | reflexivity]. }
  destruct t as [|d t]; [reflexivity|]. simpl in Hstop.
  apply andb_true_iff in Hstop as [_ Hstop].
  destruct (N_of_ascii d) as [|pd]; [reflexivity|].
  do 8 (try destruct pd as [pd|pd|]; try reflexivity; try discriminate Hstop).
Qed.

Lemma digit_is_not_dash c : is_digit c = true -> (N_of_ascii c =? 45)%N = false.
Proof. destruct c as [[] [] [] [] [] [] [] []]; (discriminate || reflexivity). Qed.

Lemma parse_number_pretty (n : Z) t :
  ends_number t = true -> parse_number (pretty n +:+ t) = Some (n, t).
Proof.
  intros Hstop. destruct n as [|p|p].
  - change (pretty 0) with "0". cbn [String.append]. unfold parse_number, parse_nat_lit.
    simpl. destruct t as [|d t]; [reflexivity|]. simpl in Hstop.
    apply andb_true_iff in Hstop as [_ Hstop].
    destruct (N_of_ascii d) as [|pd]; [reflexivity|].
    do 8 (try destruct pd as [pd|pd|]; try reflexivity; try discriminate Hstop).
  - change (pretty (Z.pos p)) with (pretty (N.pos p)).
    pose proof (parse_nat_lit_pretty p t Hstop) as Hlit.
    destruct (pretty (N.pos p) +:+ t) as [|c r] eqn:Hhead; [discriminate Hlit|].
    unfold parse_number.
    assert (is_digit c = true) as Hdig.
    { unfold parse_nat_lit in Hlit. destruct (is_digit c); [reflexivity | discriminate]. }
    rewrite (digit_is_not_dash c Hdig). exact Hlit.
  - change (pretty (Z.neg p)) with ("-" +:+ pretty (N.pos p)).
    cbn [String.append]. unfold parse_number. simpl N.eqb. cbv iota.
    rewrite (parse_nat_lit_pretty p t Hstop). reflexivity.
Qed.

(** *** White space and the first code unit of a value *)

Lemma all_spaces_app a b :
  all_spaces a = true -> all_spaces b = true -> all_spaces (a +:+ b) = true.
Proof.
  intros Ha Hb. induction a as [|c a IH]; simpl in *; [exact Hb|].
  apply andb_true_iff in Ha as [-> Ha]. simpl. exact (IH Ha).
Qed.

Lemma skip_ws_indent ind t : all_spaces ind = true -> skip_ws (ind +:+ t) = skip_ws t.
Proof.
  intros Hind. induction ind as [|c ind IH]; simpl in *; [reflexivity|].
  apply andb_true_iff in Hind as [Hc Hind]. apply N.eqb_eq in Hc.
  unfold is_json_ws. rewrite Hc. exact (IH Hind).
Qed.

Lemma skip_ws_line ind t :
  all_spaces ind = true -> skip_ws (nl +:+ ind +:+ t) = skip_ws t.
Proof. intros Hind. unfold nl. simpl. apply skip_ws_indent, Hind. Qed.

Lemma starts_value_facts c :
  starts_value c = true ->
  is_json_ws c = false
  /\ (N_of_ascii c =? 93)%N = false /\ (N_of_ascii c =? 125)%N = false.
Proof.
  destruct c as [[] [] [] [] [] [] [] []]; intros H;
    (discriminate H || (repeat split; reflexivity)).
Qed.

Lemma pretty_Z_head (n : Z) t :
  exists c r, pretty n +:+ t = String c r
              /\ (is_digit c = true \/ N_of_ascii c = 45%N).
Proof.
  destruct n as [|p|p].
  - exists "0"%char, t. split; [reflexivity | left; reflexivity].
  - change (pretty (Z.pos p)) with (pretty (N.pos p)).
    unfold pretty, pretty_N.
    destruct (decide (N.pos p = 0%N)) as [Hz | _]; [discriminate Hz|].
    rewrite pretty_N_go_app.
    destruct (pretty_N_go_head (N.pos p) ("" +:+ t)) as (c & r & -> & Hdig & _);
      [lia|].
    exists c, r. split; [reflexivity | left; exact Hdig].
  - exists "-"%char, (pretty (N.pos p) +:+ t). split; [reflexivity | right; reflexivity].
Qed.

Lemma number_head_starts_value c :
  is_digit c = true \/ N_of_ascii c = 45%N -> starts_value c = true.
Proof.
  unfold starts_value. intros [-> | ->]; [reflexivity | apply orb_true_r].
Qed.

Lemma concat_cons2 sep (x y : string) l :
  String.concat sep (x :: y :: l) = x +:+ sep +:+ String.concat sep (y :: l).
Proof. reflexivity. Qed.

(** A serialized value begins with a code unit that is neither white space
    nor a closing bracket. *)
Lemma stringify_head ind v t :
  exists c r, stringify_at ind v +:+ t = String c r /\ starts_value c = true.
Proof.
  destruct v as [|[]|n|s|l|ms].
  - eexists; eexists; split; reflexivity.
  - eexists; eexists; split; reflexivity.
  - eexists; eexists; split; reflexivity.
  - destruct (pretty_Z_head n t) as (c & r & Hhead & Hc).
    exists c, r. split; [exact Hhead | apply number_head_starts_value, Hc].
  - eexists; eexists; split; reflexivity.
  - destruct l; eexists; eexists; split; reflexivity.
  - destruct ms; eexists; eexists; split; reflexivity.
Qed.

Lemma skip_ws_stringify ind v t :
  skip_ws (stringify_at ind v +:+ t) = stringify_at ind v +:+ t.
Proof.
  destruct (stringify_head ind v t) as (c & r & -> & Hc).
  destruct (starts_value_facts c Hc) as (Hws & _). simpl. rewrite Hws. reflexivity.
Qed.

(** *** Values *)

Lemma JValue_nested_ind (P : JValue -> Prop) :
  P JNull -> (forall b, P (JBool b)) -> (forall n, P (JNum n)) ->
  (forall s, P (JStr s)) ->
  (forall l, Forall P l -> P (JArr l)) ->
  (forall ms, Forall (fun kv : string * JValue => P (snd kv)) ms -> P (JObj ms)) ->
  forall v, P v.
Proof.
  intros Hnull Hbool Hnum Hstr Harr Hobj. fix IH 1. intros [|b|n|s|l|ms].
  - exact Hnull.
  - apply Hbool.
  - apply Hnum.
  - apply Hstr.
  - apply Harr. induction l as [|x l IHl]; constructor; [apply IH | exact IHl].
  - apply Hobj. induction ms as [|[k x] ms IHms]; constructor; [apply IH | exact IHms].
Qed.

Lemma parse_value_eq f s :
  parse_value (S f) s =
  match s with
  | "" => None
  | String c s' =>
      match N_of_ascii c with
      | 110 => expect "null" JNull s
      | 116 => expect "true" (JBool true) s
      | 102 => expect "false" (JBool false) s
      | 34 => '(body, rest) ← parse_chars s'; Some (JStr body, rest)
      | 91 =>
          match skip_ws s' with
          | String c1 rest =>
              if (N_of_ascii c1 =? 93)%N then Some (JArr [], rest)
              else '(vs, rest') ← parse_elements f (skip_ws s');
                   Some (JArr vs, rest')
          | "" => None
          end
      | 123 =>
          match skip_ws s' with
          | String c1 rest =>
              if (N_of_ascii c1 =? 125)%N then Some (JObj [], rest)
              else '(ms, rest') ← parse_members f (skip_ws s');
                   Some (JObj ms, rest')
          | "" => None
          end
      | _ => '(n, rest) ← parse_number s; Some (JNum n, rest)
      end%N
  end.
Proof. reflexivity. Qed.

Lemma parse_elements_eq f s :
  parse_elements (S f) s =
  '(v, r) ← parse_value f s;
  match skip_ws r with
  | String c r' =>
      match N_of_ascii c with
      | 44 => '(vs, r'') ← parse_elements f (skip_ws r'); Some (v :: vs, r'')
      | 93 => Some ([v], r')
      | _ => None
      end%N
  | "" => None
  end.
Proof. reflexivity. Qed.

Lemma parse_members_eq f s :
  parse_members (S f) s =
  match s with
  | String q s' =>
      if negb (N_of_ascii q =? 34)%N then None
      else
        '(k, r0) ← parse_chars s';
        match skip_ws r0 with
        | String colon r1 =>
            if negb (N_of_ascii colon =? 58)%N then None
            else
              '(v, r) ← parse_value f (skip_ws r1);
              match skip_ws r with
              | String c r' =>
                  match N_of_ascii c with
                  | 44 => '(ms, r'') ← parse_members f (skip_ws r');
                          Some (add_member k v ms, r'')
                  | 125 => Some ([(k, v)], r')
                  | _ => None
                  end%N
              | "" => None
              end
        | "" => None
        end
  | "" => None
  end.
Proof. reflexivity. Qed.

(** One step of the element and member loops. *)
Lemma parse_elements_more f s x r l t :
  parse_value f s = Some (x, "," +:+ r) ->
  parse_elements f (skip_ws r) = Some (l, t) ->
  parse_elements (S f) s = Some (x :: l, t).
Proof.
  intros Hx Hl. rewrite parse_elements_eq, Hx. simpl. rewrite Hl. reflexivity.
Qed.

Lemma parse_elements_last f s x r t :
  parse_value f s = Some (x, r) ->
  skip_ws r = "]" +:+ t ->
  parse_elements (S f) s = Some ([x], t).
Proof.
  intros Hx Hr. rewrite parse_elements_eq, Hx. simpl. rewrite Hr. reflexivity.
Qed.

Lemma parse_members_key f k r :
  parse_members (S f) (QuoteJSONString k +:+ r) =
  '(k', r0) ← parse_chars (quote_body k +:+ dq +:+ r);
  match skip_ws r0 with
  | String colon r1 =>
      if negb (N_of_ascii colon =? 58)%N then None
      else
        '(v, r2) ← parse_value f (skip_ws r1);
        match skip_ws r2 with
        | String c r' =>
            match N_of_ascii c with
            | 44 => '(ms, r'') ← parse_members f (skip_ws r');
                    Some (add_member k' v ms, r'')
            | 125 => Some ([(k', v)], r')
            | _ => None
            end%N
        | "" => None
        end
  | "" => None
  end.
Proof.
  rewrite parse_members_eq. unfold QuoteJSONString. rewrite !app_assoc.
  reflexivity.
Qed.

Lemma parse_members_more f k s x r ms t :
  parse_value f s = Some (x, "," +:+ r) ->
  skip_ws s = s ->
  parse_members f (skip_ws r) = Some (ms, t) ->
  assoc_get k ms = None ->
  parse_members (S f) (QuoteJSONString k +:+ ": " +:+ s) = Some ((k, x) :: ms, t).
Proof.
  intros Hx Hs Hms Hk. rewrite parse_members_key.
  rewrite parse_chars_quote_body. simpl. rewrite Hs, Hx. simpl.
  rewrite Hms. simpl. unfold add_member. rewrite Hk. reflexivity.
Qed.

Lemma parse_members_last f k s x r t :
  parse_value f s = Some (x, r) ->
  skip_ws s = s ->
  skip_ws r = "}" +:+ t ->
  parse_members (S f) (QuoteJSONString k +:+ ": " +:+ s) = Some ([(k, x)], t).
Proof.
  intros Hx Hs Hr. rewrite parse_members_key.
  rewrite parse_chars_quote_body. simpl. rewrite Hs, Hx. simpl.
  rewrite Hr. reflexivity.
Qed.

Lemma parse_value_array f s l t :
  (exists c r, skip_ws s = String c r /\ starts_value c = true) ->
  parse_elements f (skip_ws s) = Some (l, t) ->
  parse_value (S f) ("[" +:+ s) = Some (JArr l, t).
Proof.
  intros (c & r & Hs & Hc) Hl. rewrite parse_value_eq. simpl.
  rewrite Hs in Hl |- *. destruct (starts_value_facts c Hc) as (_ & -> & _).
  rewrite Hl. reflexivity.
Qed.

Lemma parse_value_object f s ms t :
  (exists c r, skip_ws s = String c r /\ starts_value c = true) ->
  parse_members f (skip_ws s) = Some (ms, t) ->
  parse_value (S f) ("{" +:+ s) = Some (JObj ms, t).
Proof.
  intros (c & r & Hs & Hc) Hl. rewrite parse_value_eq. simpl.
  rewrite Hs in Hl |- *. destruct (starts_value_facts c Hc) as (_ & _ & ->).
  rewrite Hl. reflexivity.
Qed.

Lemma ends_number_comma t : ends_number ("," +:+ t) = true.
Proof. reflexivity. Qed.

Lemma ends_number_line t : ends_number (nl +:+ t) = true.
Proof. reflexivity. Qed.

Lemma all_spaces_inner ind : all_spaces ind = true -> all_spaces (ind +:+ "  ") = true.
Proof. intros H. apply all_spaces_app; [exact H | reflexivity]. Qed.

Lemma skip_ws_line_inner ind t :
  all_spaces ind = true -> skip_ws (nl +:+ ind +:+ "  " +:+ t) = skip_ws t.
Proof. intros Hind. rewrite skip_ws_line by exact Hind. reflexivity. Qed.

(** The joined parts begin with the first part. *)
Lemma concat_head sep (x : string) (parts : list string) (tail : string) :
  exists u, String.concat sep (x :: parts) +:+ tail = x +:+ u.
Proof.
  destruct parts as [|y parts].
  - exists tail. reflexivity.
  - exists (sep +:+ String.concat sep (y :: parts) +:+ tail).
    rewrite concat_cons2, !app_assoc. reflexivity.
Qed.

Lemma skip_ws_element_parts sep x inner parts tail :
  skip_ws (String.concat sep (stringify_at inner x :: parts) +:+ tail)
  = String.concat sep (stringify_at inner x :: parts) +:+ tail.
Proof.
  destruct (concat_head sep (stringify_at inner x) parts tail) as [u ->].
  apply skip_ws_stringify.
Qed.

Lemma parse_elements_items l :
  Forall reads_back l ->
  forall x ind t fuel,
    reads_back x ->
    all_spaces ind = true ->
    (S (fuel_of x) + list_sum (map (fun y => S (fuel_of y)) l) <= fuel)%nat ->
    parse_elements fuel
      (String.concat ("," +:+ nl +:+ ind +:+ "  ")
         (map (stringify_at (ind +:+ "  ")) (x :: l))
       +:+ nl +:+ ind +:+ "]" +:+ t)
    = Some (x :: l, t).
Proof.
  induction 1 as [|y l Hy Hl IH]; intros x ind t fuel Hx Hind Hfuel;
    (destruct fuel as [|f]; [simpl in Hfuel; lia|]); simpl in Hfuel.
  - cbn [map String.concat].
    apply parse_elements_last with (r := nl +:+ ind +:+ "]" +:+ t).
    + apply Hx; [apply all_spaces_inner, Hind | apply ends_number_line | lia].
    + rewrite skip_ws_line by exact Hind. reflexivity.
  - cbn [map]. rewrite concat_cons2, !app_assoc.
    eapply parse_elements_more.
    + apply Hx; [apply all_spaces_inner, Hind | apply ends_number_comma | lia].
    + rewrite skip_ws_line_inner by exact Hind.
      rewrite skip_ws_element_parts.
      apply IH; [exact Hy | exact Hind | lia].
Qed.

Lemma skip_ws_quoted k u : skip_ws (QuoteJSONString k +:+ u) = QuoteJSONString k +:+ u.
Proof. unfold QuoteJSONString. rewrite !app_assoc. reflexivity. Qed.

Lemma skip_ws_member_parts sep k x inner parts tail :
  skip_ws (String.concat sep
             ((QuoteJSONString k +:+ ": " +:+ stringify_at inner x) :: parts)
           +:+ tail)
  = String.concat sep ((QuoteJSONString k +:+ ": " +:+ stringify_at inner x) :: parts)
    +:+ tail.
Proof.
  destruct (concat_head sep (QuoteJSONString k +:+ ": " +:+ stringify_at inner x)
              parts tail) as [u ->].
  rewrite !app_assoc. apply skip_ws_quoted.
Qed.

Lemma parse_members_items ms :
  Forall (fun kv : string * JValue => reads_back (snd kv)) ms ->
  forall k x ind t fuel,
    reads_back x ->
    distinct_keys ((k, x) :: ms) = true ->
    all_spaces ind = true ->
    (S (fuel_of x)
     + list_sum (map (fun kv : string * JValue => let '(_, y) := kv in S (fuel_of y)) ms)
     <= fuel)%nat ->
    parse_members fuel
      (String.concat ("," +:+ nl +:+ ind +:+ "  ")
         (map (member_at (ind +:+ "  ")) ((k, x) :: ms))
       +:+ nl +:+ ind +:+ "}" +:+ t)
    = Some ((k, x) :: ms, t).
Proof.
  induction 1 as [|[k2 y] ms Hy Hms IH]; intros k x ind t fuel Hx Hkeys Hind Hfuel;
    (destruct fuel as [|f]; [simpl in Hfuel; lia|]); simpl in Hfuel.
  - cbn [map String.concat]. rewrite !app_assoc.
    apply parse_members_last with (r := nl +:+ ind +:+ "}" +:+ t).
    + apply Hx; [apply all_spaces_inner, Hind | apply ends_number_line | lia].
    + apply skip_ws_stringify.
    + rewrite skip_ws_line by exact Hind. reflexivity.
  - cbn [map]. rewrite concat_cons2, !app_assoc.
    simpl in Hkeys.
    destruct (String.eqb k k2) eqn:Hkk2; [discriminate Hkeys|].
    destruct (assoc_get k ms) eqn:Hkms; [discriminate Hkeys|].
    eapply parse_members_more.
    + apply Hx; [apply all_spaces_inner, Hind | apply ends_number_comma | lia].
    + apply skip_ws_stringify.
    + rewrite skip_ws_line_inner by exact Hind.
      rewrite skip_ws_member_parts.
      apply IH; [exact Hy | exact Hkeys | exact Hind | lia].
    + simpl. rewrite Hkk2. exact Hkms.
Qed.

Lemma parse_value_number_head f c r :
  is_digit c = true \/ N_of_ascii c = 45%N ->
  parse_value (S f) (String c r)
  = '(n, rest) ← parse_number (String c r); Some (JNum n, rest).
Proof.
  intros Hc. rewrite parse_value_eq.
  destruct c as [[] [] [] [] [] [] [] []]; try reflexivity;
    exfalso; destruct Hc as [Hc | Hc]; discriminate Hc.
Qed.

Lemma prefix_app lit t : String.prefix lit (lit +:+ t) = true.
Proof.
  induction lit as [|a lit IH]; simpl.
  - destruct t; reflexivity.
  - destruct (ascii_dec a a) as [_ | Hne]; [exact IH | contradiction Hne; reflexivity].
Qed.

Lemma drop_chars_app lit t : drop_chars (String.length lit) (lit +:+ t) = t.
Proof. induction lit as [|a lit IH]; simpl; [reflexivity | exact IH]. Qed.

Lemma expect_literal lit v t : expect lit v (lit +:+ t) = Some (v, t).
Proof. unfold expect. rewrite prefix_app, drop_chars_app. reflexivity. Qed.

Lemma forallb_Forall_snd (P : JValue -> Prop) (ms : list (string * JValue)) :
  Forall (fun kv : string * JValue => canonical (snd kv) = true -> P (snd kv)) ms ->
  forallb (fun kv : string * JValue => let '(_, x) := kv in canonical x) ms = true ->
  Forall (fun kv : string * JValue => P (snd kv)) ms.
Proof.
  induction 1 as [|[k x] ms Hx Hms IH]; intros Hall; [constructor|].
  simpl in Hall. apply andb_true_iff in Hall as [Hcx Hall].
  constructor; [exact (Hx Hcx) | exact (IH Hall)].
Qed.

Lemma forallb_Forall_items (P : JValue -> Prop) (l : list JValue) :
  Forall (fun x => canonical x = true -> P x) l ->
  forallb canonical l = true ->
  Forall P l.
Proof.
  induction 1 as [|x l Hx Hl IH]; intros Hall; [constructor|].
  simpl in Hall. apply andb_true_iff in Hall as [Hcx Hall].
  constructor; [exact (Hx Hcx) | exact (IH Hall)].
Qed.

(** What [JSON.stringify] writes for a canonical value, [parse_value] reads
    back as that value. *)
Lemma canonical_reads_back v : canonical v = true -> reads_back v.
Proof.
  induction v as [|b|n|s|l IHl|ms IHms] using JValue_nested_ind;
    intros Hcan ind t fuel Hind Hstop Hfuel;
    (destruct fuel as [|f]; [simpl in Hfuel; lia|]).
  - rewrite parse_value_eq. apply (expect_literal "null").
  - rewrite parse_value_eq. destruct b.
    + apply (expect_literal "true").
    + apply (expect_literal "false").
  - cbn [stringify_at].
    destruct (pretty_Z_head n t) as (c & r & Hhead & Hc).
    pose proof (parse_number_pretty n t Hstop) as Hnum.
    rewrite Hhead in Hnum |- *.
    rewrite (parse_value_number_head f c r Hc), Hnum. reflexivity.
  - cbn [stringify_at]. rewrite parse_value_eq. unfold QuoteJSONString.
    rewrite !app_assoc.
    change (dq +:+ quote_body s +:+ dq +:+ t)
      with (String (ascii_of_nat 34) (quote_body s +:+ dq +:+ t)).
    cbv beta iota. simpl N_of_ascii. cbv iota.
    rewrite parse_chars_quote_body. reflexivity.
  - cbn [canonical] in Hcan.
    pose proof (forallb_Forall_items _ _ IHl Hcan) as Hall.
    destruct Hall as [|x l Hx Hl]; [reflexivity|].
    cbn [stringify_at]. unfold wrap. cbn [map]. rewrite !app_assoc.
    simpl in Hfuel.
    apply parse_value_array.
    + rewrite skip_ws_line_inner by exact Hind.
      rewrite skip_ws_element_parts.
      destruct (concat_head ("," +:+ nl +:+ ind +:+ "  ")
                  (stringify_at (ind +:+ "  ") x)
                  (map (stringify_at (ind +:+ "  ")) l)
                  (nl +:+ ind +:+ "]" +:+ t)) as [u ->].
      apply stringify_head.
    + rewrite skip_ws_line_inner by exact Hind.
      rewrite skip_ws_element_parts.
      apply (parse_elements_items l Hl x ind t f Hx Hind). lia.
  - cbn [canonical] in Hcan. apply andb_true_iff in Hcan as [Hkeys Hcan].
    pose proof (forallb_Forall_snd _ _ IHms Hcan) as Hall.
    destruct Hall as [|[k x] ms Hx Hms]; [reflexivity|].
    cbn [stringify_at]. unfold wrap. cbn [map]. rewrite !app_assoc.
    simpl in Hfuel.
    apply parse_value_object.
    + rewrite skip_ws_line_inner by exact Hind.
      rewrite skip_ws_member_parts.
      destruct (concat_head ("," +:+ nl +:+ ind +:+ "  ")
                  (QuoteJSONString k +:+ ": " +:+ stringify_at (ind +:+ "  ") x)
                  (map (member_at (ind +:+ "  ")) ms)
                  (nl +:+ ind +:+ "}" +:+ t)) as [u ->].
      unfold QuoteJSONString. rewrite !app_assoc.
      eexists. eexists. split; reflexivity.
    + rewrite skip_ws_line_inner by exact Hind.
      rewrite skip_ws_member_parts.
      apply (parse_members_items ms Hms k x ind t f Hx Hkeys Hind). lia.
Qed.

(** *** Recursion depth *)

Lemma length_concat sep (parts : list string) :
  (1 <= String.length sep)%nat ->
  (list_sum (map String.length parts) + (length parts - 1)
   <= String.length (String.concat sep parts))%nat.
Proof.
  intros Hsep. induction parts as [|x [|y parts] IH].
  - simpl. lia.
  - simpl. lia.
  - rewrite concat_cons2, !length_app.
    change (list_sum (map String.length (x :: y :: parts)))
      with (String.length x + list_sum (map String.length (y :: parts)))%nat.
    change (length (x :: y :: parts)) with (S (length (y :: parts))).
    simpl length in IH |- *. lia.
Qed.

Lemma length_wrap open close ind (parts : list string) :
  (String.length open = 1)%nat ->
  (1 + list_sum (map String.length parts) + length parts
   <= String.length (wrap open close ind parts))%nat.
Proof.
  intros Hopen. unfold wrap. destruct parts as [|x parts].
  - rewrite length_app. simpl. lia.
  - pose proof (length_concat ("," +:+ nl +:+ ind +:+ "  ") (x :: parts)) as Hc.
    rewrite !length_app. rewrite !length_app in Hc. simpl in Hc |- *. lia.
Qed.

Lemma fuel_of_bound v : forall ind, (fuel_of v <= String.length (stringify_at ind v))%nat.
Proof.
  induction v as [|b|n|s|l IHl|ms IHms] using JValue_nested_ind; intros ind.
  - simpl. lia.
  - destruct b; simpl; lia.
  - simpl. destruct (pretty_Z_head n "") as (c & r & Hhead & _).
    apply (f_equal String.length) in Hhead. rewrite length_app in Hhead.
    simpl in Hhead. lia.
  - simpl. unfold QuoteJSONString. rewrite !length_app. simpl. lia.
  - cbn [fuel_of stringify_at].
    pose proof (length_wrap "[" "]" ind (map (stringify_at (ind +:+ "  ")) l) eq_refl)
      as Hw.
    assert (list_sum (map (fun x => S (fuel_of x)) l)
            <= list_sum (map String.length (map (stringify_at (ind +:+ "  ")) l))
               + length (map (stringify_at (ind +:+ "  ")) l))%nat as Hsum.
    { clear Hw. induction IHl as [|x l Hx Hl IH]; simpl; [lia|].
      specialize (Hx (ind +:+ "  ")). lia. }
    lia.
  - cbn [fuel_of stringify_at].
    pose proof (length_wrap "{" "}" ind (map (member_at (ind +:+ "  ")) ms) eq_refl)
      as Hw.
    assert (list_sum (map (fun kv : string * JValue =>
                             let '(_, x) := kv in S (fuel_of x)) ms)
            <= list_sum (map String.length (map (member_at (ind +:+ "  ")) ms))
               + length (map (member_at (ind +:+ "  ")) ms))%nat as Hsum.
    { clear Hw. induction IHms as [|[k x] ms Hx Hms IH]; [simpl; lia|].
      cbn [map list_sum fold_right length].
      assert (String.length (stringify_at (ind +:+ "  ") x)
              <= String.length (member_at (ind +:+ "  ") (k, x)))%nat as Hmem.
      { cbv beta iota. rewrite !length_app. lia. }
      specialize (Hx (ind +:+ "  ")). cbn [snd] in Hx.
      unfold list_sum in IH. lia. }
    lia.
Qed.

(** *** Cleaning a reply that has nothing to clean *)

Lemma prefix_shorter a b s :
  String.prefix (a +:+ b) s = true -> String.prefix a s = true.
Proof.
  revert s. induction a as [|x a IH]; intros s H.
  - destruct s; reflexivity.
  - destruct s as [|y s]; [discriminate H|]. simpl in H |- *.
    destruct (ascii_dec x y); [exact (IH _ H) | discriminate H].
Qed.

Lemma prefix_longer_false a b s :
  String.prefix a s = false -> String.prefix (a +:+ b) s = false.
Proof.
  intros H. destruct (String.prefix (a +:+ b) s) eqn:E; [|reflexivity].
  apply prefix_shorter in E. congruence.
Qed.

Lemma occurs_longer a b s : occurs a s = false -> occurs (a +:+ b) s = false.
Proof.
  induction s as [|c s IH]; cbn [occurs]; intros H;
    apply orb_false_iff in H as [Hp Hs];
    rewrite (prefix_longer_false _ _ _ Hp); [reflexivity | exact (IH Hs)].
Qed.

Lemma remove_all_absent pat s : occurs pat s = false -> remove_all pat s = s.
Proof.
  unfold remove_all. induction s as [|c s IH]; intros H; [reflexivity|].
  cbn [occurs] in H. apply orb_false_iff in H as [Hp Hs].
  cbn [remove_all_from]. rewrite Hp, (IH Hs). reflexivity.
Qed.

Lemma trimEnd_keeps_last s c :
  is_js_space c = false -> trimEnd (s +:+ String c "") = s +:+ String c "".
Proof.
  intros Hc. induction s as [|a s IH]; simpl.
  - rewrite Hc. reflexivity.
  - rewrite IH. destruct s; reflexivity.
Qed.

Lemma echo_reply_shape text g :
  echo_reply text g
  = "{" +:+ QuoteJSONString "narrative" +:+ ": "
    +:+ QuoteJSONString text +:+ "," +:+ " "
    +:+ QuoteJSONString "updatedGkn" +:+ ": " +:+ stringify_at "" g +:+ "}".
Proof. unfold echo_reply, QuoteJSONString, JSON_stringify. rewrite !app_assoc. reflexivity. Qed.

(** A reply without code fences, framed in braces, is its own cleaned
    form. *)
Lemma clean_echo_reply text g :
  occurs "```" (echo_reply text g) = false ->
  clean_response (echo_reply text g) = echo_reply text g.
Proof.
  intros Hfence. unfold clean_response.
  rewrite (remove_all_absent "```json") by exact (occurs_longer "```" "json" _ Hfence).
  rewrite (remove_all_absent "```") by exact Hfence.
  unfold trim.
  assert (exists body, echo_reply text g = String "{" (body +:+ "}")) as [body ->].
  { exists (dq +:+ "narrative" +:+ dq +:+ ": " +:+ QuoteJSONString text
            +:+ ", " +:+ dq +:+ "updatedGkn" +:+ dq +:+ ": " +:+ JSON_stringify g).
    unfold echo_reply. rewrite !app_assoc. reflexivity. }
  change (trimStart (String "{" (body +:+ "}"))) with (String "{" (body +:+ "}")).
  change (String "{" (body +:+ "}")) with (String "{" body +:+ "}").
  apply trimEnd_keeps_last. reflexivity.
Qed.

(** The codec round trip on the text: an echoed canonical state parses
    back as the reply object. *)
Lemma JSON_parse_echo_reply text g :
  canonical g = true ->
  JSON_parse (echo_reply text g)
  = Some (JObj [("narrative", JStr text); ("updatedGkn", g)]).
Proof.
  intros Hcan. unfold JSON_parse.
  pose proof (fuel_of_bound g "") as Hg.
  assert (String.length (stringify_at "" g) + 1 <= String.length (echo_reply text g))%nat
    as Hlen.
  { rewrite echo_reply_shape, !length_app. simpl. lia. }
  assert (2 * String.length (echo_reply text g) + 2
          = S (S (S (2 * String.length (echo_reply text g) - 1))))%nat as -> by lia.
  set (f := (2 * String.length (echo_reply text g) - 1)%nat) in *.
  assert (parse_value (S (S (S f))) (skip_ws (echo_reply text g))
          = Some (JObj [("narrative", JStr text); ("updatedGkn", g)], "")) as ->.
  { rewrite echo_reply_shape.
    change (skip_ws ("{" +:+ ?x)) with ("{" +:+ x).
    apply parse_value_object.
    - rewrite skip_ws_quoted. unfold QuoteJSONString. rewrite !app_assoc.
      eexists. eexists. split; reflexivity.
    - rewrite skip_ws_quoted.
      eapply parse_members_more.
      + apply (canonical_reads_back (JStr text) eq_refl "" _ (S f));
          [reflexivity | reflexivity | simpl; lia].
      + apply skip_ws_quoted.
      + change (skip_ws (" " +:+ ?x)) with (skip_ws x). rewrite skip_ws_quoted.
        apply parse_members_last with (r := "}").
        * apply (canonical_reads_back g Hcan "" "}" f); [reflexivity | reflexivity|].
          unfold f. lia.
        * apply skip_ws_stringify.
        * reflexivity.
      + reflexivity. }
  reflexivity.
Qed.

End Codec.

(** ** Properties of the handlers *)

Section Properties.

Variable MASTER_PROMPT_V11 : string.
Variable GKN_SCHEMA_DEFINITION : string.

Abbreviation gmPrompt := (getGameMasterPrompt MASTER_PROMPT_V11).
Abbreviation storyPrompt :=
  (getStoryGeneratorPrompt MASTER_PROMPT_V11 GKN_SCHEMA_DEFINITION).

(** The world after the model has been called with [prompt]. *)
Abbreviation asked w prompt :=
  {| game_sessions := game_sessions w; prompts_sent := prompt :: prompts_sent w |}.

(** *** Decoding *)

Lemma not_has_key_falsy v k o :
  get_prop v k = Some o -> ~ has_key v k -> truthy_opt o = false.
Proof.
  intros Hget Hno. destruct o as [x|]; [|reflexivity].
  exfalso. apply Hno. exists x. exact Hget.
Qed.

Lemma falsy_at_falsy v k o :
  get_prop v k = Some o -> falsy_at v k -> truthy_opt o = false.
Proof.
  intros Hget (x & Hx & Hf). rewrite Hget in Hx. injection Hx as ->. exact Hf.
Qed.

Lemma decode_turn_pair reply :
  decode_turn reply = decode_pair "narrative" "updatedGkn" reply.
Proof. reflexivity. Qed.

Lemma decode_story_pair reply :
  decode_story reply = decode_pair "gkn" "initialHook" reply.
Proof. reflexivity. Qed.

Lemma decode_pair_untruthy k1 k2 text v :
  JSON_parse (clean_response text) = Some v ->
  (forall a b, get_prop v k1 = Some a -> get_prop v k2 = Some b ->
               truthy_opt a = false \/ truthy_opt b = false) ->
  decode_pair k1 k2 (Some text) = None.
Proof.
  intros Hparse Hbad. unfold decode_pair. simpl. rewrite Hparse. simpl.
  destruct (get_prop v k1) as [a|] eqn:Ha; [|reflexivity]. simpl.
  destruct (get_prop v k2) as [b|] eqn:Hb; [|reflexivity]. simpl.
  destruct (Hbad a b eq_refl eq_refl) as [-> | ->]; simpl.
  - reflexivity.
  - rewrite orb_true_r. reflexivity.
Qed.

Lemma decode_pair_failure k1 k2 reply :
  OracleFailure k1 k2 reply -> decode_pair k1 k2 reply = None.
Proof.
  intros [ | text Hparse | text v Hparse Hkeys].
  - reflexivity.
  - unfold decode_pair. simpl. rewrite Hparse. reflexivity.
  - apply decode_pair_untruthy with (v := v); [exact Hparse|].
    intros a b Ha Hb. destruct Hkeys as [H1 | H2].
    + left. eapply not_has_key_falsy; eauto.
    + right. eapply not_has_key_falsy; eauto.
Qed.

Lemma decode_pair_falsy k1 k2 text v :
  JSON_parse (clean_response text) = Some v ->
  falsy_at v k1 \/ falsy_at v k2 ->
  decode_pair k1 k2 (Some text) = None.
Proof.
  intros Hparse Hfalsy. apply decode_pair_untruthy with (v := v); [exact Hparse|].
  intros a b Ha Hb. destruct Hfalsy as [H1 | H2].
  - left. eapply falsy_at_falsy; eauto.
  - right. eapply falsy_at_falsy; eauto.
Qed.

(** *** The turn handler, guard by guard *)

Lemma turn_past_guards env data auth w doc :
  nonempty (turn_sessionId data) = true ->
  nonempty (playerInput data) = true ->
  game_sessions w !! turn_sessionId data = Some doc ->
  not_owner (userId doc) auth = false ->
  is_ooc (playerInput data) = false ->
  processPlayerTurnLogic MASTER_PROMPT_V11 env data auth w =
  let prompt := gmPrompt (gkn doc) (playerInput data) in
  match decode_turn (generateContent env prompt) with
  | None => (asked w prompt, inr {| narrative := JStr FALLBACK_NARRATIVE |})
  | Some (narrativeResponse, updatedGkn) =>
      match stamp_turnCount (gkn doc) updatedGkn with
      | None =>
          (asked w prompt,
           inl {| code := internal;
                  message := "Failed to save the updated game state." |})
      | Some stamped =>
          if write_ok env
          then ({| game_sessions :=
                     alter (update_fields stamped (Date_now env))
                       (turn_sessionId data) (game_sessions w);
                   prompts_sent := prompt :: prompts_sent w |},
                inr {| narrative := narrativeResponse |})
          else (asked w prompt,
                inl {| code := internal;
                       message := "Failed to save the updated game state." |})
      end
  end.
Proof.
  intros Hid Hin Hdoc Hown Hooc.
  unfold processPlayerTurnLogic, bind, doc_get, generate, doc_update, ret, throw.
  rewrite Hid, Hin. simpl. rewrite Hdoc, Hown, Hooc. simpl.
  destruct (decode_turn _) as [[n u]|]; [|reflexivity].
  destruct (stamp_turnCount _ _); [|reflexivity].
  simpl. destruct (write_ok env); reflexivity.
Qed.

(** C1: when the model call or the decoding of its reply fails, the turn
    is a no-op on the store, no error leaves the handler, and the caller
    receives the fixed fallback narrative. *)
Theorem C1_failed_oracle_turn_is_noop env data auth w doc :
  nonempty (turn_sessionId data) = true ->
  nonempty (playerInput data) = true ->
  game_sessions w !! turn_sessionId data = Some doc ->
  not_owner (userId doc) auth = false ->
  is_ooc (playerInput data) = false ->
  OracleFailure "narrative" "updatedGkn"
    (generateContent env (gmPrompt (gkn doc) (playerInput data))) ->
  exists w',
    processPlayerTurnLogic MASTER_PROMPT_V11 env data auth w
    = (w', inr {| narrative := JStr FALLBACK_NARRATIVE |})
    /\ game_sessions w' = game_sessions w.
Proof.
  intros Hid Hin Hdoc Hown Hooc Hfail.
  rewrite (turn_past_guards env data auth w doc Hid Hin Hdoc Hown Hooc).
  cbv zeta. rewrite decode_turn_pair, (decode_pair_failure _ _ _ Hfail).
  eexists. split; reflexivity.
Qed.

(** C10: a required key that is present with a falsy value (an empty
    narrative, a [null] state) sends the turn down the same fallback path as
    a missing key: nothing is persisted and the fallback narrative is
    returned. *)
Theorem C10_falsy_key_takes_fallback env data auth w doc text v :
  nonempty (turn_sessionId data) = true ->
  nonempty (playerInput data) = true ->
  game_sessions w !! turn_sessionId data = Some doc ->
  not_owner (userId doc) auth = false ->
  is_ooc (playerInput data) = false ->
  generateContent env (gmPrompt (gkn doc) (playerInput data)) = Some text ->
  JSON_parse (clean_response text) = Some v ->
  falsy_at v "narrative" \/ falsy_at v "updatedGkn" ->
  exists w',
    processPlayerTurnLogic MASTER_PROMPT_V11 env data auth w
    = (w', inr {| narrative := JStr FALLBACK_NARRATIVE |})
    /\ game_sessions w' = game_sessions w.
Proof.
  intros Hid Hin Hdoc Hown Hooc Hreply Hparse Hfalsy.
  rewrite (turn_past_guards env data auth w doc Hid Hin Hdoc Hown Hooc).
  cbv zeta. rewrite Hreply, decode_turn_pair.
  rewrite (decode_pair_falsy _ _ _ _ Hparse Hfalsy).
  eexists. split; reflexivity.
Qed.

(** C3 (as the handler implements it): when the input itself, as received
    and without any trimming, begins with an opening bracket and ends with a
    closing bracket, the model is not called, the world is left exactly as
    it was, and the narrative is the banner followed by the pretty-printed
    stored state. *)
Theorem C3_ooc_input_inspects_state env data auth w doc :
  nonempty (turn_sessionId data) = true ->
  game_sessions w !! turn_sessionId data = Some doc ->
  not_owner (userId doc) auth = false ->
  startsWith (playerInput data) "[" = true ->
  endsWith (playerInput data) "]" = true ->
  processPlayerTurnLogic MASTER_PROMPT_V11 env data auth w
  = (w, inr {| narrative := JStr (OOC_BANNER +:+ JSON_stringify (gkn doc)) |}).
Proof.
  intros Hid Hdoc Hown Hstart Hend.
  assert (Hin : nonempty (playerInput data) = true).
  { destruct (playerInput data); [discriminate Hstart | reflexivity]. }
  unfold processPlayerTurnLogic, bind, doc_get, ret, is_ooc.
  rewrite Hid, Hin. simpl. rewrite Hdoc, Hown, Hstart, Hend. reflexivity.
Qed.

(** C8: a session owned by somebody else is refused with
    [permission-denied] before the model is called or anything is written;
    a session owned by the anonymous sentinel is never refused on grounds of
    identity, whoever calls and even with no identity at all. *)
Theorem C8_authorization env data auth w doc :
  game_sessions w !! turn_sessionId data = Some doc ->
  (nonempty (turn_sessionId data) = true ->
   nonempty (playerInput data) = true ->
   userId doc <> "anonymous" ->
   auth <> Some (userId doc) ->
   processPlayerTurnLogic MASTER_PROMPT_V11 env data auth w
   = (w, inl {| code := permission_denied;
                message := "You do not have permission to access this game session." |}))
  /\
  (userId doc = "anonymous" ->
   forall w' e, processPlayerTurnLogic MASTER_PROMPT_V11 env data auth w = (w', inl e) ->
                code e <> permission_denied).
Proof.
  intros Hdoc. split.
  - intros Hid Hin Hanon Hauth.
    assert (Hown : not_owner (userId doc) auth = true).
    { unfold not_owner. apply andb_true_intro. split.
      - apply negb_true_iff, String.eqb_neq. exact Hanon.
      - destruct auth as [uid|]; [|reflexivity].
        apply negb_true_iff, String.eqb_neq. congruence. }
    unfold processPlayerTurnLogic, bind, doc_get, throw.
    rewrite Hid, Hin. simpl. rewrite Hdoc, Hown. reflexivity.
  - intros Hanon w' e.
    unfold processPlayerTurnLogic, bind, doc_get, generate, doc_update, ret, throw.
    destruct (negb (nonempty (turn_sessionId data)) || negb (nonempty (playerInput data)));
      [intros [= <- <-]; discriminate|].
    rewrite Hdoc. unfold not_owner. rewrite Hanon. simpl.
    destruct (is_ooc (playerInput data)); [discriminate|].
    destruct (decode_turn _) as [[n u]|]; [|discriminate].
    destruct (stamp_turnCount _ _); [|intros [= <- <-]; discriminate].
    simpl. destruct (write_ok env); [discriminate | intros [= <- <-]; discriminate].
Qed.

(** C7: the write of a turn touches the [gkn] and [lastModified] fields of
    the addressed session document only.  Whatever the outcome of the call,
    and in particular after a committed turn, the document keeps its
    [sessionId], [userId] and [initialHook], and every other document of the
    collection is left as it was. *)
Theorem C7_turn_writes_two_fields env data auth w w' res doc :
  processPlayerTurnLogic MASTER_PROMPT_V11 env data auth w = (w', res) ->
  game_sessions w !! turn_sessionId data = Some doc ->
  (exists doc',
      game_sessions w' !! turn_sessionId data = Some doc'
      /\ sessionId doc' = sessionId doc
      /\ userId doc' = userId doc
      /\ initialHook doc' = initialHook doc)
  /\ forall id, id <> turn_sessionId data ->
                game_sessions w' !! id = game_sessions w !! id.
Proof.
  intros Hrun Hdoc.
  assert (Hsame : game_sessions w' = game_sessions w \/
                  exists g t, game_sessions w'
                              = alter (update_fields g t) (turn_sessionId data)
                                  (game_sessions w)).
  { revert Hrun.
    unfold processPlayerTurnLogic, bind, doc_get, generate, doc_update, ret, throw.
    destruct (negb (nonempty (turn_sessionId data))
              || negb (nonempty (playerInput data)));
      [intros [= <- _]; left; reflexivity|].
    rewrite Hdoc. destruct (not_owner (userId doc) auth);
      [intros [= <- _]; left; reflexivity|].
    destruct (is_ooc (playerInput data)); [intros [= <- _]; left; reflexivity|].
    simpl. destruct (decode_turn _) as [[n u]|];
      [|intros [= <- _]; left; reflexivity].
    destruct (stamp_turnCount _ _) as [g|]; [|intros [= <- _]; left; reflexivity].
    simpl. destruct (write_ok env); intros [= <- _]; [right|left; reflexivity].
    exists g, (Date_now env). reflexivity. }
  destruct Hsame as [-> | (g & t & ->)].
  - split; [|reflexivity]. exists doc. auto.
  - split.
    + exists (update_fields g t doc). rewrite lookup_alter_eq, Hdoc. auto.
    + intros id Hne. rewrite lookup_alter_ne by congruence. reflexivity.
Qed.

(** *** The turn counter *)

Lemma assoc_get_set k v ms : assoc_get k (assoc_set k v ms) = Some v.
Proof.
  induction ms as [|[k' v'] ms IH]; simpl.
  - rewrite String.eqb_refl. reflexivity.
  - destruct (String.eqb k k') eqn:E; simpl.
    + rewrite String.eqb_refl. reflexivity.
    + rewrite E. exact IH.
Qed.

(** Up to [2^53] in magnitude an integer is a double. *)
Lemma to_double_exact m : - 2 ^ 53 <= m <= 2 ^ 53 -> to_double m = m.
Proof.
  intros Hm. unfold to_double.
  destruct (Z.abs m <? 2 ^ 53) eqn:Hsmall; [reflexivity|].
  apply Z.ltb_ge in Hsmall.
  assert (m = 2 ^ 53 \/ m = - 2 ^ 53) as [-> | ->] by lia; reflexivity.
Qed.




(** *** Story creation *)

Lemma story_past_guards env data auth w :
  nonempty (seed data) = true ->
  nonempty (genre data) = true ->
  generateStoryLogic MASTER_PROMPT_V11 GKN_SCHEMA_DEFINITION env data auth w =
  let prompt := storyPrompt (seed data) (genre data)
                  (or_default (playerName data) "Kaelen") in
  match decode_story (generateContent env prompt) with
  | None =>
      (asked w prompt,
       inl {| code := internal; message := "Failed to generate story world." |})
  | Some (g, hook) =>
      if write_ok env
      then ({| game_sessions :=
                 <[new_doc_id env :=
                     {| sessionId := new_doc_id env;
                        userId := or_default auth "anonymous";
                        initialHook := hook;
                        lastModified := Date_now env;
                        gkn := g |}]> (game_sessions w);
               prompts_sent := prompt :: prompts_sent w |},
            inr {| created_sessionId := new_doc_id env;
                   created_initialHook := hook |})
      else (asked w prompt,
            inl {| code := internal;
                   message := "Failed to save new game session." |})
  end.
Proof.
  intros Hseed Hgenre.
  unfold generateStoryLogic, bind, generate, doc_set, ret, throw.
  rewrite Hseed, Hgenre. simpl.
  destruct (decode_story _) as [[g hook]|]; [|reflexivity].
  simpl. destruct (write_ok env); reflexivity.
Qed.

(** C6: with a seed and a genre given, a failing model call or a reply that
    does not decode (not JSON, or [gkn] or [initialHook] absent) makes story
    creation fail with an [internal] error that reaches the caller, and no
    session document is written. *)
Theorem C6_failed_oracle_fails_creation env data auth w :
  nonempty (seed data) = true ->
  nonempty (genre data) = true ->
  OracleFailure "gkn" "initialHook"
    (generateContent env
       (storyPrompt (seed data) (genre data)
          (or_default (playerName data) "Kaelen"))) ->
  exists w',
    generateStoryLogic MASTER_PROMPT_V11 GKN_SCHEMA_DEFINITION env data auth w
    = (w', inl {| code := internal; message := "Failed to generate story world." |})
    /\ game_sessions w' = game_sessions w.
Proof.
  intros Hseed Hgenre Hfail.
  rewrite (story_past_guards env data auth w Hseed Hgenre). cbv zeta.
  rewrite decode_story_pair, (decode_pair_failure _ _ _ Hfail).
  eexists. split; reflexivity.
Qed.

(** C4 (as the handler implements it): the game-knowledge state a
    successful story creation persists is the [gkn] value of the model's
    decoded reply, unchanged: its [turnCount] and the player's inventory are
    whatever the reply holds.  The prompt asks the model for 0 and for an
    empty inventory; the handler itself forces neither. *)
Theorem C4_created_state_is_decoded_state env data auth w w' r :
  generateStoryLogic MASTER_PROMPT_V11 GKN_SCHEMA_DEFINITION env data auth w = (w', inr r) ->
  exists g,
    decode_story (generateContent env
                    (storyPrompt (seed data) (genre data)
                       (or_default (playerName data) "Kaelen")))
    = Some (g, created_initialHook r)
    /\ gkn <$> game_sessions w' !! created_sessionId r = Some g.
Proof.
  unfold generateStoryLogic, bind, generate, doc_set, ret, throw.
  destruct (negb (nonempty (seed data)) || negb (nonempty (genre data)));
    [discriminate|].
  simpl. destruct (decode_story _) as [[g hook]|]; [|discriminate].
  simpl. destruct (write_ok env); [|discriminate].
  intros [= <- <-]. simpl. exists g. split; [reflexivity|].
  rewrite lookup_insert_eq. reflexivity.
Qed.

(** C5 (as the handler implements it): there is no validation after
    decoding.  A decoded state whose [player.locationId] is not a key of
    [world.locations] is persisted as the new session like any other, as
    soon as the store accepts the write, and the call succeeds. *)
Theorem C5_dangling_location_is_persisted env data auth w g hook :
  nonempty (seed data) = true ->
  nonempty (genre data) = true ->
  decode_story (generateContent env
                  (storyPrompt (seed data) (genre data)
                     (or_default (playerName data) "Kaelen")))
  = Some (g, hook) ->
  location_valid g = false ->
  write_ok env = true ->
  exists w',
    generateStoryLogic MASTER_PROMPT_V11 GKN_SCHEMA_DEFINITION env data auth w
    = (w', inr {| created_sessionId := new_doc_id env;
                  created_initialHook := hook |})
    /\ gkn <$> game_sessions w' !! new_doc_id env = Some g.
Proof.
  intros Hseed Hgenre Hdec _ Hwrite.
  rewrite (story_past_guards env data auth w Hseed Hgenre). cbv zeta.
  rewrite Hdec, Hwrite. eexists. split; [reflexivity|].
  simpl. rewrite lookup_insert_eq. reflexivity.
Qed.

(** *** The codec round trip through a turn *)

Lemma assoc_get_set_other k k' v ms :
  k' <> k -> assoc_get k' (assoc_set k v ms) = assoc_get k' ms.
Proof.
  intros Hne. induction ms as [|[k0 v0] ms IH]; simpl.
  - apply String.eqb_neq in Hne. rewrite Hne. reflexivity.
  - destruct (String.eqb k k0) eqn:E; simpl.
    + apply String.eqb_eq in E. subst k0.
      apply String.eqb_neq in Hne. rewrite Hne. reflexivity.
    + destruct (String.eqb k' k0); [reflexivity | exact IH].
Qed.

Lemma decode_turn_echo text g :
  canonical g = true ->
  nonempty text = true ->
  truthy g = true ->
  occurs "```" (echo_reply text g) = false ->
  decode_turn (Some (echo_reply text g)) = Some (JStr text, g).
Proof.
  intros Hcan Htext Hg Hfence. unfold decode_turn. simpl.
  rewrite (clean_echo_reply text g Hfence), (JSON_parse_echo_reply text g Hcan).
  simpl. unfold nonempty in Htext. rewrite Htext, Hg. reflexivity.
Qed.

(** The round trip through a turn holds on every stored state object whose
    echoed reply has no code fence: when the model echoes the encoded state
    unchanged under a non-empty narrative, the turn commits and the
    persisted state is the original one with [turnCount] set to the previous
    count plus 1 (as long as the addition does not round), every other
    member being the same. *)
Theorem echo_round_trip_without_fence env data auth w doc ms n text :
  nonempty (turn_sessionId data) = true ->
  nonempty (playerInput data) = true ->
  game_sessions w !! turn_sessionId data = Some doc ->
  not_owner (userId doc) auth = false ->
  is_ooc (playerInput data) = false ->
  gkn doc = JObj ms ->
  assoc_get "turnCount" ms = Some (JNum n) ->
  - 2 ^ 53 <= n + 1 <= 2 ^ 53 ->
  canonical (JObj ms) = true ->
  nonempty text = true ->
  occurs "```" (echo_reply text (JObj ms)) = false ->
  generateContent env (gmPrompt (JObj ms) (playerInput data))
  = Some (echo_reply text (JObj ms)) ->
  write_ok env = true ->
  exists w' ms',
    processPlayerTurnLogic MASTER_PROMPT_V11 env data auth w
    = (w', inr {| narrative := JStr text |})
    /\ gkn <$> game_sessions w' !! turn_sessionId data = Some (JObj ms')
    /\ assoc_get "turnCount" ms' = Some (JNum (n + 1))
    /\ forall k, k <> "turnCount" -> assoc_get k ms' = assoc_get k ms.
Proof.
  intros Hid Hin Hdoc Hown Hooc Hgkn Htc Hn Hcan Htext Hfence Hreply Hwrite.
  rewrite (turn_past_guards env data auth w doc Hid Hin Hdoc Hown Hooc).
  cbv zeta. rewrite Hgkn, Hreply.
  rewrite (decode_turn_echo text (JObj ms) Hcan Htext eq_refl Hfence).
  unfold stamp_turnCount. simpl get_prop. rewrite Htc. simpl.
  assert (js_plus_one (if negb (n =? 0) then JNum n else JNum 0) = JNum (n + 1))
    as ->.
  { destruct (n =? 0) eqn:E; simpl.
    - apply Z.eqb_eq in E. subst n. reflexivity.
    - rewrite (to_double_exact _ Hn). reflexivity. }
  rewrite Hwrite.
  eexists. exists (assoc_set "turnCount" (JNum (n + 1)) ms).
  split; [reflexivity|]. simpl. rewrite lookup_alter_eq, Hdoc. simpl.
  split; [reflexivity|]. split.
  - apply assoc_get_set.
  - intros k Hk. apply assoc_get_set_other. exact Hk.
Qed.

End Properties.

(** ** Further properties of the string handling *)

Section Cleaning.

Local Arguments String.append !_ _ / : simpl nomatch.

Lemma app_nil_r (s : string) : s +:+ "" = s.
Proof. induction s as [|c s IH]; simpl; congruence. Qed.

Lemma prefix_nil s : String.prefix "" s = true.
Proof. destruct s; reflexivity. Qed.

Lemma prefix_cons a p b s :
  String.prefix (String a p) (String b s)
  = if ascii_dec a b then String.prefix p s else false.
Proof. reflexivity. Qed.

(** *** Brackets *)

Lemma endsWith_aux_split suf n : forall s,
  endsWith_aux s suf n = true -> exists a, s = a +:+ suf.
Proof.
  induction n as [|n IH]; intros s H.
  - assert (String.eqb s suf = true) as Heq by (destruct s; exact H).
    apply String.eqb_eq in Heq. subst s. exists "". reflexivity.
  - destruct s as [|c s]; [discriminate H|]. cbn [endsWith_aux] in H.
    destruct (IH s H) as [a ->]. exists (String c a). reflexivity.
Qed.

Lemma endsWith_aux_app a suf :
  endsWith_aux (a +:+ suf) suf (String.length a) = true.
Proof.
  induction a as [|c a IH]; [|exact IH].
  cbn [String.length String.append]. destruct suf; apply String.eqb_refl.
Qed.

Lemma endsWith_iff s suf : endsWith s suf = true <-> exists a, s = a +:+ suf.
Proof.
  unfold endsWith. split.
  - intros H. apply andb_true_iff in H as [_ H]. exact (endsWith_aux_split _ _ _ H).
  - intros [a ->]. rewrite length_app. apply andb_true_iff. split.
    + apply Nat.leb_le. lia.
    + replace (String.length a + String.length suf - String.length suf)%nat
        with (String.length a) by lia.
      apply endsWith_aux_app.
Qed.

Lemma startsWith_bracket s :
  startsWith s "[" = true <-> exists rest, s = "[" +:+ rest.
Proof.
  unfold startsWith. split.
  - destruct s as [|c s]; [discriminate|]. rewrite prefix_cons.
    destruct (ascii_dec "[" c) as [<- | _]; [|discriminate].
    intros _. exists s. reflexivity.
  - intros [rest ->]. apply prefix_app.
Qed.

(** X1: the out-of-character test accepts exactly the inputs that are an
    opening bracket, any text, and a closing bracket, with nothing before or
    after: no white space is trimmed away first. *)
Theorem is_ooc_iff_bracketed input :
  is_ooc input = true <-> exists body, input = "[" +:+ body +:+ "]".
Proof.
  unfold is_ooc. rewrite andb_true_iff, startsWith_bracket, endsWith_iff. split.
  - intros [[rest ->] [a Ha]].
    destruct a as [|c a].
    + simpl in Ha. destruct rest; discriminate Ha.
    + simpl in Ha. injection Ha as <- ->. exists a. reflexivity.
  - intros [body ->]. split.
    + exists (body +:+ "]"). reflexivity.
    + exists ("[" +:+ body). rewrite app_assoc. reflexivity.
Qed.

(** *** Trimming *)

Lemma trimEnd_app_space x c :
  is_js_space c = true -> trimEnd (x +:+ String c "") = trimEnd x.
Proof.
  intros Hc. induction x as [|a x IH]; simpl.
  - rewrite Hc. reflexivity.
  - rewrite IH. reflexivity.
Qed.

Lemma trim_app_space s c :
  is_js_space c = true -> trim (s +:+ String c "") = trim s.
Proof.
  intros Hc. unfold trim. induction s as [|a s IH]; simpl.
  - rewrite Hc. reflexivity.
  - destruct (is_js_space a); [exact IH|].
    apply (trimEnd_app_space (String a s) c Hc).
Qed.

Lemma trimEnd_head s c r :
  trimEnd s = String c r -> exists s', s = String c s'.
Proof.
  destruct s as [|a s]; simpl; [discriminate|].
  destruct (trimEnd s); [destruct (is_js_space a)|]; intros [= <- _] || intros [=];
    eexists; reflexivity.
Qed.

Lemma trimStart_head s c r : trimStart s = String c r -> is_js_space c = false.
Proof.
  induction s as [|a s IH]; simpl; [discriminate|].
  destruct (is_js_space a) eqn:Ha; [exact IH|]. intros [= <- _]. exact Ha.
Qed.

(** What [trim] returns does not begin with white space. *)
Lemma trim_head s c r : trim s = String c r -> is_js_space c = false.
Proof.
  unfold trim. intros H. destruct (trimEnd_head _ _ _ H) as [s' Hs'].
  exact (trimStart_head _ _ _ Hs').
Qed.

Lemma trimEnd_last s : forall a c, trimEnd s = a +:+ String c "" -> is_js_space c = false.
Proof.
  induction s as [|x s IH]; intros a c; simpl.
  - destruct a; discriminate.
  - destruct (trimEnd s) as [|y t] eqn:Ht.
    + destruct (is_js_space x) eqn:Hx.
      * destruct a; discriminate.
      * destruct a as [|a0 a]; simpl; [intros [= <-]; exact Hx|].
        destruct a; discriminate.
    + destruct a as [|a0 a]; simpl; [discriminate|].
      intros [= _ Hrest]. exact (IH a c Hrest).
Qed.

(** What [trim] returns does not end with white space. *)
Lemma trim_last s a c : trim s = a +:+ String c "" -> is_js_space c = false.
Proof. unfold trim. apply trimEnd_last. Qed.

Lemma trimEnd_fixed s :
  (forall a c, s = a +:+ String c "" -> is_js_space c = false) -> trimEnd s = s.
Proof.
  induction s as [|x s IH]; intros Hlast; [reflexivity|]. simpl.
  destruct s as [|y s].
  - simpl. rewrite (Hlast "" x eq_refl). reflexivity.
  - rewrite IH.
    + reflexivity.
    + intros a c Ha. apply (Hlast (String x a) c). simpl. rewrite Ha. reflexivity.
Qed.


(** *** Code fences *)

Lemma occurs_cons pat c s :
  occurs pat (String c s) = String.prefix pat (String c s) || occurs pat s.
Proof. reflexivity. Qed.

Lemma occurs_nil pat : occurs pat "" = String.prefix pat "".
Proof. apply orb_false_r. Qed.

Lemma remove_all_keep pat c s :
  String.prefix pat (String c s) = false ->
  remove_all pat (String c s) = String c (remove_all pat s).
Proof. unfold remove_all. intros H. cbn [remove_all_from]. rewrite H. reflexivity. Qed.

(** A line break after [b] keeps a fence from reaching past the end of
    [b]. *)
Lemma prefix_fence_line b t :
  String.prefix "```" (b +:+ nl +:+ t) = String.prefix "```" b.
Proof.
  unfold nl.
  destruct b as [|c1 [|c2 [|c3 b]]]; cbn [String.append];
    rewrite ?prefix_cons; repeat (destruct (ascii_dec _ _)); try reflexivity;
    try discriminate.
  rewrite !prefix_nil. reflexivity.
Qed.

Lemma remove_fence_before_line b :
  occurs "```" b = false ->
  remove_all "```" (b +:+ nl +:+ "```") = b +:+ nl.
Proof.
  induction b as [|c b IH]; intros H; [reflexivity|].
  rewrite occurs_cons in H. apply orb_false_iff in H as [Hp Hb].
  change (String c b +:+ nl +:+ "```") with (String c (b +:+ nl +:+ "```")).
  rewrite remove_all_keep.
  - rewrite (IH Hb). reflexivity.
  - change (String c (b +:+ nl +:+ "```")) with (String c b +:+ nl +:+ "```").
    rewrite prefix_fence_line. exact Hp.
Qed.

Lemma no_json_fence_before_line b :
  occurs "```" b = false ->
  occurs "```json" (b +:+ nl +:+ "```") = false.
Proof.
  induction b as [|c b IH]; intros H; [reflexivity|].
  rewrite occurs_cons in H. apply orb_false_iff in H as [Hp Hb].
  change (String c b +:+ nl +:+ "```") with (String c (b +:+ nl +:+ "```")).
  rewrite occurs_cons, (IH Hb), orb_false_r.
  apply (prefix_longer_false "```" "json").
  change (String c (b +:+ nl +:+ "```")) with (String c b +:+ nl +:+ "```").
  rewrite prefix_fence_line. exact Hp.
Qed.

Lemma clean_fenced body :
  occurs "```" body = false -> clean_response (fenced body) = trim body.
Proof.
  intros H. unfold clean_response, fenced.
  assert (remove_all "```json" ("```json" +:+ nl +:+ body +:+ nl +:+ "```")
          = nl +:+ body +:+ nl +:+ "```") as ->.
  { transitivity (remove_all "```json" (nl +:+ body +:+ nl +:+ "```")).
    - reflexivity.
    - apply remove_all_absent. exact (no_json_fence_before_line body H). }
  assert (remove_all "```" (nl +:+ body +:+ nl +:+ "```") = nl +:+ body +:+ nl) as ->.
  { unfold nl at 1. cbn [String.append]. rewrite remove_all_keep by reflexivity.
    rewrite (remove_fence_before_line body H). reflexivity. }
  transitivity (trim (body +:+ nl)); [reflexivity|].
  apply trim_app_space. reflexivity.
Qed.

Lemma clean_plain body :
  occurs "```" body = false -> clean_response body = trim body.
Proof.
  intros H. unfold clean_response.
  rewrite (remove_all_absent "```json") by exact (occurs_longer "```" "json" _ H).
  rewrite (remove_all_absent "```") by exact H. reflexivity.
Qed.

(** X2: the cleaning does what it is there for.  A reply the model wraps
    in a [json] code fence decodes, for the turn handler and for story
    creation alike, to exactly what the bare reply decodes to. *)
Theorem fenced_reply_decodes_like_bare body :
  occurs "```" body = false ->
  decode_turn (Some (fenced body)) = decode_turn (Some body)
  /\ decode_story (Some (fenced body)) = decode_story (Some body).
Proof.
  intros H. unfold decode_turn, decode_story. simpl.
  rewrite (clean_fenced body H), (clean_plain body H). split; reflexivity.
Qed.

Lemma prefix_fence_head c s :
  String.prefix "```" (String c s) = true -> c = "`"%char.
Proof.
  rewrite prefix_cons. destruct (ascii_dec "`" c) as [<- | _]; [reflexivity | discriminate].
Qed.

Lemma prefix_fence_inv s :
  String.prefix "```" s = true -> exists r, s = "```" +:+ r.
Proof.
  destruct s as [|c1 [|c2 [|c3 r]]]; try discriminate.
  - rewrite prefix_cons. destruct (ascii_dec _ _); discriminate.
  - rewrite !prefix_cons. repeat (destruct (ascii_dec _ _)); discriminate.
  - rewrite !prefix_cons.
    destruct (ascii_dec "`" c1) as [<- |]; [|discriminate].
    destruct (ascii_dec "`" c2) as [<- |]; [|discriminate].
    destruct (ascii_dec "`" c3) as [<- |]; [|discriminate].
    intros _. exists r. reflexivity.
Qed.

Lemma remove_all_fence r : remove_all "```" ("```" +:+ r) = remove_all "```" r.
Proof.
  unfold remove_all.
  change ("```" +:+ r) with (String "`" (String "`" (String "`" r))).
  assert (String.prefix "```" (String "`" (String "`" (String "`" r))) = true) as Hp
    by apply (prefix_app "```" r).
  cbn [remove_all_from]. rewrite Hp. reflexivity.
Qed.

(** After the removal, two backquotes never follow a backquote that was
    kept. *)
Lemma no_pair_after_kept s :
  String.prefix "```" (String "`" s) = false ->
  String.prefix "``" (remove_all "```" s) = false.
Proof.
  intros H. rewrite prefix_cons in H.
  destruct (ascii_dec "`" "`") as [_ | Hne]; [|contradiction Hne; reflexivity].
  destruct s as [|d0 s]; [reflexivity|].
  rewrite prefix_cons in H.
  destruct (ascii_dec "`" d0) as [<- | Hd].
  - assert (String.prefix "```" (String "`" s) = false) as Hkeep.
    { rewrite !prefix_cons. destruct (ascii_dec "`" "`"); [|reflexivity].
      destruct s as [|k s]; [reflexivity|]. rewrite prefix_cons in H |- *.
      destruct (ascii_dec "`" k); [|reflexivity].
      rewrite prefix_nil in H. discriminate H. }
    rewrite (remove_all_keep _ _ _ Hkeep), prefix_cons.
    destruct (ascii_dec "`" "`"); [|reflexivity].
    destruct s as [|k s]; [reflexivity|]. rewrite prefix_cons in H.
    destruct (ascii_dec "`" k) as [<- | Hk].
    + rewrite prefix_nil in H. discriminate H.
    + assert (String.prefix "```" (String k s) = false) as Hkeep2.
      { rewrite prefix_cons. destruct (ascii_dec "`" k); [contradiction | reflexivity]. }
      rewrite (remove_all_keep _ _ _ Hkeep2), prefix_cons.
      destruct (ascii_dec "`" k); [contradiction | reflexivity].
  - assert (String.prefix "```" (String d0 s) = false) as Hkeep.
    { rewrite prefix_cons. destruct (ascii_dec "`" d0); [contradiction | reflexivity]. }
    rewrite (remove_all_keep _ _ _ Hkeep), prefix_cons.
    destruct (ascii_dec "`" d0); [contradiction | reflexivity].
Qed.

Lemma no_fence_after_removal n : forall s,
  (String.length s <= n)%nat -> occurs "```" (remove_all "```" s) = false.
Proof.
  induction n as [|n IH]; intros s Hlen.
  - destruct s; [reflexivity | simpl in Hlen; lia].
  - destruct s as [|c s]; [reflexivity|].
    destruct (String.prefix "```" (String c s)) eqn:Hp.
    + destruct (prefix_fence_inv _ Hp) as [r Hr]. rewrite Hr, remove_all_fence.
      apply IH. apply (f_equal String.length) in Hr. simpl in Hr, Hlen. lia.
    + rewrite (remove_all_keep _ _ _ Hp), occurs_cons.
      rewrite (IH s) by (simpl in Hlen; lia). rewrite orb_false_r.
      destruct (String.prefix "```" (String c (remove_all "```" s))) eqn:Hq;
        [|reflexivity].
      pose proof (prefix_fence_head _ _ Hq) as ->.
      pose proof (no_pair_after_kept s Hp) as Hpair.
      rewrite prefix_cons in Hq.
      destruct (ascii_dec "`" "`"); [congruence | discriminate].
Qed.

Lemma occurs_tail pat c s : occurs pat (String c s) = false -> occurs pat s = false.
Proof. rewrite occurs_cons. intros H. apply orb_false_iff in H as [_ H]. exact H. Qed.

Lemma occurs_trimStart pat s : occurs pat s = false -> occurs pat (trimStart s) = false.
Proof.
  induction s as [|c s IH]; intros H; [exact H|]. simpl.
  destruct (is_js_space c); [apply IH, (occurs_tail _ _ _ H) | exact H].
Qed.

Lemma prefix_app_l pat a r :
  String.prefix pat a = true -> String.prefix pat (a +:+ r) = true.
Proof.
  revert a. induction pat as [|x pat IH]; intros a H; [apply prefix_nil|].
  destruct a as [|y a]; [discriminate H|].
  cbn [String.append]. rewrite prefix_cons in H |- *.
  destruct (ascii_dec x y); [exact (IH a H) | discriminate H].
Qed.

Lemma occurs_app_l pat a r : occurs pat a = true -> occurs pat (a +:+ r) = true.
Proof.
  induction a as [|c a IH]; intros H.
  - rewrite occurs_nil in H. destruct pat; [|discriminate H].
    destruct r; reflexivity.
  - rewrite occurs_cons in H. cbn [String.append]. rewrite occurs_cons.
    apply orb_true_iff in H as [H | H].
    + pose proof (prefix_app_l pat (String c a) r H) as Hp.
      cbn [String.append] in Hp. rewrite Hp. reflexivity.
    + rewrite (IH H). apply orb_true_r.
Qed.

Lemma trimEnd_is_prefix s : exists r, s = trimEnd s +:+ r.
Proof.
  induction s as [|c s [r IH]]; [exists ""; reflexivity|].
  cbn [trimEnd]. destruct (trimEnd s) as [|y t] eqn:Ht.
  - destruct (is_js_space c).
    + exists (String c s). reflexivity.
    + exists r. cbn [String.append] in IH |- *. congruence.
  - exists r. cbn [String.append] in IH |- *. congruence.
Qed.

Lemma occurs_trimEnd pat s : occurs pat s = false -> occurs pat (trimEnd s) = false.
Proof.
  intros H. destruct (occurs pat (trimEnd s)) eqn:E; [|reflexivity].
  destruct (trimEnd_is_prefix s) as [r Hr].
  rewrite Hr, (occurs_app_l _ _ r E) in H. discriminate H.
Qed.

(** X3: whatever the model replies, the text handed to [JSON.parse] holds
    no run of three backquotes: the second replacement also takes the
    fences the first one uncovers, and trimming adds none. *)
Theorem cleaned_text_has_no_fence text :
  occurs "```" (clean_response text) = false.
Proof.
  unfold clean_response, trim.
  apply occurs_trimEnd, occurs_trimStart.
  apply (no_fence_after_removal (String.length (remove_all "```json" text))).
  lia.
Qed.

(** *** The state codec on its own *)

Lemma starts_value_not_space c : starts_value c = true -> is_js_space c = false.
Proof.
  destruct c as [[] [] [] [] [] [] [] []]; intros H;
    (discriminate H || reflexivity).
Qed.

Lemma pretty_N_char_not_space d : is_js_space (pretty_N_char d) = false.
Proof.
  unfold pretty_N_char.
  destruct d as [|p]; [reflexivity|].
  do 4 (try destruct p as [p|p|]; try reflexivity).
Qed.

Lemma pretty_N_last (x : N) :
  exists body c, pretty x = body +:+ String c "" /\ is_js_space c = false.
Proof.
  unfold pretty, pretty_N. destruct (decide (x = 0%N)) as [-> | Hx].
  - exists "", "0"%char. split; reflexivity.
  - rewrite pretty_N_go_step by lia.
    exists (pretty_N_go (x / 10) ""), (pretty_N_char (x mod 10)). split.
    + rewrite pretty_N_go_app. reflexivity.
    + apply pretty_N_char_not_space.
Qed.

(** A serialized value ends with a code unit that is not white space. *)
Lemma stringify_last ind v :
  exists body c, stringify_at ind v = body +:+ String c "" /\ is_js_space c = false.
Proof.
  destruct v as [|[]|n|s|l|ms].
  - exists "nul", "l"%char. split; reflexivity.
  - exists "tru", "e"%char. split; reflexivity.
  - exists "fals", "e"%char. split; reflexivity.
  - cbn [stringify_at]. destruct n as [|p|p].
    + exists "", "0"%char. split; reflexivity.
    + exact (pretty_N_last (N.pos p)).
    + destruct (pretty_N_last (N.pos p)) as (body & c & Hb & Hc).
      exists ("-" +:+ body), c. split; [|exact Hc].
      change (pretty (Z.neg p)) with ("-" +:+ pretty (N.pos p)).
      rewrite Hb, app_assoc. reflexivity.
  - exists (dq +:+ quote_body s), (ascii_of_nat 34). split; [|reflexivity].
    cbn [stringify_at]. unfold QuoteJSONString, dq. rewrite !app_assoc. reflexivity.
  - cbn [stringify_at]. unfold wrap. destruct (map _ l) as [|x parts].
    + exists "[", "]"%char. split; reflexivity.
    + exists ("[" +:+ nl +:+ (ind +:+ "  ")
              +:+ String.concat ("," +:+ nl +:+ ind +:+ "  ") (x :: parts)
              +:+ nl +:+ ind), "]"%char.
      split; [|reflexivity]. rewrite !app_assoc. reflexivity.
  - cbn [stringify_at]. unfold wrap. destruct (map _ ms) as [|x parts].
    + exists "{", "}"%char. split; reflexivity.
    + exists ("{" +:+ nl +:+ (ind +:+ "  ")
              +:+ String.concat ("," +:+ nl +:+ ind +:+ "  ") (x :: parts)
              +:+ nl +:+ ind), "}"%char.
      split; [|reflexivity]. rewrite !app_assoc. reflexivity.
Qed.

Lemma app_last_inj a c b d :
  a +:+ String c "" = b +:+ String d "" -> c = d.
Proof.
  revert b. induction a as [|x a IH]; intros [|y b] H; simpl in H.
  - congruence.
  - destruct b; discriminate H.
  - destruct a; discriminate H.
  - injection H as _ H. exact (IH b H).
Qed.

Lemma trim_stringify ind v : trim (stringify_at ind v) = stringify_at ind v.
Proof.
  unfold trim.
  destruct (stringify_head ind v "") as (c & r & Hhead & Hc).
  rewrite app_nil_r in Hhead.
  assert (trimStart (stringify_at ind v) = stringify_at ind v) as ->.
  { rewrite Hhead. simpl. rewrite (starts_value_not_space c Hc). reflexivity. }
  apply trimEnd_fixed. intros a d Ha.
  destruct (stringify_last ind v) as (body & e & Hb & He).
  rewrite Hb in Ha. rewrite <- (app_last_inj _ _ _ _ Ha). exact He.
Qed.

(** The serializer followed by the parser is the identity on canonical
    values. *)
Lemma JSON_parse_stringify v : canonical v = true -> JSON_parse (JSON_stringify v) = Some v.
Proof.
  intros Hcan. unfold JSON_parse, JSON_stringify.
  pose proof (skip_ws_stringify "" v "") as Hskip. rewrite app_nil_r in Hskip.
  pose proof (canonical_reads_back v Hcan "" ""
                (2 * String.length (stringify_at "" v) + 2)%nat eq_refl eq_refl)
    as Hread.
  rewrite app_nil_r in Hread. rewrite Hskip, Hread; [reflexivity|].
  pose proof (fuel_of_bound v ""). lia.
Qed.

(** X4: the state codec round trip.  What the encoder of the prompt and
    of the state inspector writes for a state, the decoder of the replies
    (cleaning, then parsing) reads back as that state, provided the state
    holds no run of three backquotes. *)
Theorem decode_of_encode g :
  canonical g = true ->
  occurs "```" (JSON_stringify g) = false ->
  JSON_parse (clean_response (JSON_stringify g)) = Some g.
Proof.
  intros Hcan Hfence. rewrite (clean_plain _ Hfence).
  unfold JSON_stringify. rewrite trim_stringify.
  exact (JSON_parse_stringify g Hcan).
Qed.

End Cleaning.

(** ** Further properties of the handlers *)

Section MoreProperties.

Variable MASTER_PROMPT_V11 : string.
Variable GKN_SCHEMA_DEFINITION : string.

Abbreviation gmPrompt := (getGameMasterPrompt MASTER_PROMPT_V11).
Abbreviation storyPrompt :=
  (getStoryGeneratorPrompt MASTER_PROMPT_V11 GKN_SCHEMA_DEFINITION).
Abbreviation asked w prompt :=
  {| game_sessions := game_sessions w; prompts_sent := prompt :: prompts_sent w |}.

(** The turn handler with its monad unfolded: the four guards in the order
    of the source, then the two [try] blocks. *)
Lemma turn_unfolded env data auth w :
  processPlayerTurnLogic MASTER_PROMPT_V11 env data auth w =
  let id := turn_sessionId data in
  let input := playerInput data in
  if negb (nonempty id) || negb (nonempty input) then
    (w, inl {| code := invalid_argument;
               message := "The function must be called with a 'sessionId' and 'playerInput'." |})
  else
    match game_sessions w !! id with
    | None =>
        (w, inl {| code := not_found;
                   message := "Game session with ID " +:+ id +:+ " not found." |})
    | Some doc =>
        if not_owner (userId doc) auth then
          (w, inl {| code := permission_denied;
                     message := "You do not have permission to access this game session." |})
        else if is_ooc input then
          (w, inr {| narrative := JStr (OOC_BANNER +:+ JSON_stringify (gkn doc)) |})
        else
          let prompt := gmPrompt (gkn doc) input in
          match decode_turn (generateContent env prompt) with
          | None => (asked w prompt, inr {| narrative := JStr FALLBACK_NARRATIVE |})
          | Some (narrativeResponse, updatedGkn) =>
              match stamp_turnCount (gkn doc) updatedGkn with
              | None =>
                  (asked w prompt,
                   inl {| code := internal;
                          message := "Failed to save the updated game state." |})
              | Some stamped =>
                  if write_ok env
                  then ({| game_sessions :=
                             alter (update_fields stamped (Date_now env)) id
                               (game_sessions w);
                           prompts_sent := prompt :: prompts_sent w |},
                        inr {| narrative := narrativeResponse |})
                  else (asked w prompt,
                        inl {| code := internal;
                               message := "Failed to save the updated game state." |})
              end
          end
    end.
Proof.
  unfold processPlayerTurnLogic, bind, doc_get, generate, doc_update, ret, throw.
  cbv zeta.
  destruct (negb (nonempty (turn_sessionId data))
            || negb (nonempty (playerInput data))); [reflexivity|].
  destruct (game_sessions w !! turn_sessionId data) as [doc|]; [|reflexivity].
  destruct (not_owner (userId doc) auth); [reflexivity|].
  destruct (is_ooc (playerInput data)); [reflexivity|].
  simpl. destruct (decode_turn _) as [[n u]|]; [|reflexivity].
  destruct (stamp_turnCount _ _); [|reflexivity].
  simpl. destruct (write_ok env); reflexivity.
Qed.

Lemma story_unfolded env data auth w :
  generateStoryLogic MASTER_PROMPT_V11 GKN_SCHEMA_DEFINITION env data auth w =
  if negb (nonempty (seed data)) || negb (nonempty (genre data)) then
    (w, inl {| code := invalid_argument;
               message := "The function must be called with a 'seed' and 'genre'." |})
  else
    let prompt := storyPrompt (seed data) (genre data)
                    (or_default (playerName data) "Kaelen") in
    match decode_story (generateContent env prompt) with
    | None =>
        (asked w prompt,
         inl {| code := internal; message := "Failed to generate story world." |})
    | Some (g, hook) =>
        if write_ok env
        then ({| game_sessions :=
                   <[new_doc_id env :=
                       {| sessionId := new_doc_id env;
                          userId := or_default auth "anonymous";
                          initialHook := hook;
                          lastModified := Date_now env;
                          gkn := g |}]> (game_sessions w);
                 prompts_sent := prompt :: prompts_sent w |},
              inr {| created_sessionId := new_doc_id env;
                     created_initialHook := hook |})
        else (asked w prompt,
              inl {| code := internal;
                     message := "Failed to save new game session." |})
    end.
Proof.
  unfold generateStoryLogic, bind, generate, doc_set, ret, throw.
  destruct (negb (nonempty (seed data)) || negb (nonempty (genre data)));
    [reflexivity|].
  cbv zeta. simpl. destruct (decode_story _) as [[g hook]|]; [|reflexivity].
  simpl. destruct (write_ok env); reflexivity.
Qed.

Lemma decode_pair_truthy k1 k2 reply x y :
  decode_pair k1 k2 reply = Some (x, y) -> truthy x = true /\ truthy y = true.
Proof.
  unfold decode_pair. destruct reply as [text|]; [|discriminate]. simpl.
  destruct (JSON_parse _) as [v|]; [|discriminate]. simpl.
  destruct (get_prop v k1) as [a|]; [|discriminate]. simpl.
  destruct (get_prop v k2) as [b|]; [|discriminate]. simpl.
  destruct a as [a|], b as [b|]; simpl; try discriminate;
    destruct (truthy a) eqn:Ha; simpl; try discriminate;
    destruct (truthy b) eqn:Hb; simpl; try discriminate.
  intros [= <- <-]. auto.
Qed.

(** Case analysis along the branches of [turn_unfolded]. *)
Ltac turn_branches :=
  rewrite turn_unfolded; cbv zeta;
  destruct (negb (nonempty (turn_sessionId _)) || negb (nonempty (playerInput _)))
    eqn:Hvalid;
  [|destruct (game_sessions _ !! turn_sessionId _) as [stored|] eqn:Hstored;
    [destruct (not_owner (userId stored) _) eqn:Hown;
     [|destruct (is_ooc (playerInput _)) eqn:Hooc;
       [|destruct (decode_turn _) as [[rnar rupd]|] eqn:Hdec;
         [destruct (stamp_turnCount _ _) as [stamped|] eqn:Hstamp;
          [destruct (write_ok _) eqn:Hwrite|]|]]]|]].

(** X5: the turn handler fails with [invalid-argument] exactly when the
    session id or the player input is empty, and it has then touched
    nothing: no lookup result is used, the model is not called, nothing is
    written. *)
Theorem turn_invalid_argument_iff env data auth w :
  (nonempty (turn_sessionId data) && nonempty (playerInput data) = false ->
   processPlayerTurnLogic MASTER_PROMPT_V11 env data auth w
   = (w, inl {| code := invalid_argument;
                message := "The function must be called with a 'sessionId' and 'playerInput'." |}))
  /\ forall w' e,
       processPlayerTurnLogic MASTER_PROMPT_V11 env data auth w = (w', inl e) ->
       code e = invalid_argument ->
       nonempty (turn_sessionId data) && nonempty (playerInput data) = false.
Proof.
  split.
  - intros Hempty. rewrite turn_unfolded. cbv zeta.
    rewrite <- negb_andb, Hempty. reflexivity.
  - intros w' e. turn_branches; intros [= <- <-]; try discriminate.
    intros _. rewrite <- negb_andb in Hvalid. apply negb_true_iff. exact Hvalid.
Qed.

(** X6: a [not-found] error of the turn handler tells the caller that both
    inputs were given and that the store has no document under the session
    id: the handler raises it nowhere else.  Its message names the id, and
    the world is as it was. *)
Theorem turn_not_found_means_missing_session env data auth w w' e :
  processPlayerTurnLogic MASTER_PROMPT_V11 env data auth w = (w', inl e) ->
  code e = not_found ->
  nonempty (turn_sessionId data) = true
  /\ nonempty (playerInput data) = true
  /\ game_sessions w !! turn_sessionId data = None
  /\ message e = "Game session with ID " +:+ turn_sessionId data +:+ " not found."
  /\ w' = w.
Proof.
  turn_branches; intros [= <- <-]; try discriminate.
  intros _. apply orb_false_iff in Hvalid as [Hid Hin].
  apply negb_false_iff in Hid, Hin. repeat split; assumption || reflexivity.
Qed.

(** X7: an [internal] error of the turn handler always means that a reply
    of the model was decoded and then lost: the model was called once, its
    reply had a truthy [narrative] and [updatedGkn], and the store is as it
    was.  A failure of the model itself never becomes an error. *)
Theorem turn_internal_means_lost_reply env data auth w w' e :
  processPlayerTurnLogic MASTER_PROMPT_V11 env data auth w = (w', inl e) ->
  code e = internal ->
  exists doc nar upd,
    game_sessions w !! turn_sessionId data = Some doc
    /\ decode_turn (generateContent env (gmPrompt (gkn doc) (playerInput data)))
       = Some (nar, upd)
    /\ truthy nar = true /\ truthy upd = true
    /\ (stamp_turnCount (gkn doc) upd = None \/ write_ok env = false)
    /\ w' = asked w (gmPrompt (gkn doc) (playerInput data)).
Proof.
  turn_branches; intros [= <- <-]; try discriminate; intros _;
    exists stored, rnar, rupd; (split; [reflexivity|]); (split; [exact Hdec|]).
  - destruct (decode_pair_truthy _ _ _ _ _ Hdec) as [Hn Hu]. auto.
  - destruct (decode_pair_truthy _ _ _ _ _ Hdec) as [Hn Hu]. auto.
Qed.

(** X8: one request asks the model at most once, and only after
    validation, lookup and authorization have passed and the input is not
    out-of-character.  When it asks, the prompt is the game-master prompt
    built from the stored state and the raw input. *)
Theorem turn_asks_at_most_once env data auth w w' res :
  processPlayerTurnLogic MASTER_PROMPT_V11 env data auth w = (w', res) ->
  prompts_sent w' = prompts_sent w
  \/ exists doc,
       game_sessions w !! turn_sessionId data = Some doc
       /\ not_owner (userId doc) auth = false
       /\ is_ooc (playerInput data) = false
       /\ prompts_sent w'
          = gmPrompt (gkn doc) (playerInput data) :: prompts_sent w.
Proof.
  turn_branches; intros [= <- <-]; try (left; reflexivity);
    right; exists stored; auto.
Qed.

(** X9: a committed turn replaces the stored state wholesale.  Every
    member of the persisted state other than [turnCount] is the member of
    the model's updated state, and a member the reply leaves out is gone:
    nothing of the previous state is merged in. *)
Theorem turn_replaces_state_wholesale env data auth w w' nar doc old ms :
  processPlayerTurnLogic MASTER_PROMPT_V11 env data auth w
  = (w', inr {| narrative := nar |}) ->
  is_ooc (playerInput data) = false ->
  game_sessions w !! turn_sessionId data = Some doc ->
  gkn doc = JObj old ->
  decode_turn (generateContent env (gmPrompt (gkn doc) (playerInput data)))
  = Some (nar, JObj ms) ->
  exists ms',
    gkn <$> game_sessions w' !! turn_sessionId data = Some (JObj ms')
    /\ forall k, k <> "turnCount" -> assoc_get k ms' = assoc_get k ms.
Proof.
  intros Hrun Hooc0 Hdoc0 Hold Hdec0. revert Hrun.
  rewrite turn_unfolded. cbv zeta. rewrite Hdoc0, Hooc0, Hdec0, Hold.
  unfold stamp_turnCount. simpl.
  destruct (negb (nonempty (turn_sessionId data))
            || negb (nonempty (playerInput data))); [discriminate|].
  destruct (not_owner (userId doc) auth); [discriminate|].
  destruct (write_ok env); [|discriminate].
  intros [= <-].
  eexists. simpl. rewrite lookup_alter_eq, Hdoc0. simpl. split; [reflexivity|].
  intros k Hk. apply assoc_get_set_other. exact Hk.
Qed.

(** X10: a stored state object that has no [turnCount], or a falsy one,
    counts as turn 0: the first committed turn on it sets the counter
    to 1. *)
Theorem missing_counter_counts_as_zero env data auth w w' doc old :
  committed MASTER_PROMPT_V11 env data auth w w' ->
  game_sessions w !! turn_sessionId data = Some doc ->
  gkn doc = JObj old ->
  truthy_opt (assoc_get "turnCount" old) = false ->
  turnCount_at w' (turn_sessionId data) = Some 1.
Proof.
  intros (Hooc0 & (doc0 & nar0 & ms & Hdoc0 & Hdec0) & r & Hrun) Hdoc1 Hold Hfalsy.
  rewrite Hdoc1 in Hdoc0. injection Hdoc0 as <-. revert Hrun.
  rewrite turn_unfolded. cbv zeta. rewrite Hdoc1, Hooc0, Hdec0, Hold.
  unfold stamp_turnCount. simpl.
  destruct (negb (nonempty (turn_sessionId data))
            || negb (nonempty (playerInput data))); [discriminate|].
  destruct (not_owner (userId doc) auth); [discriminate|].
  destruct (write_ok env); [|discriminate].
  intros [= <- _].
  unfold turnCount_at. simpl. rewrite lookup_alter_eq, Hdoc1. simpl.
  rewrite assoc_get_set.
  destruct (assoc_get "turnCount" old) as [v|]; simpl in *; [|reflexivity].
  rewrite Hfalsy. reflexivity.
Qed.

(** *** Story creation *)

(** X11: story creation fails with [invalid-argument] exactly when the
    seed or the genre is empty, and it has then done nothing: the model is
    not called and nothing is written. *)
Theorem story_invalid_argument_iff env data auth w :
  (nonempty (seed data) && nonempty (genre data) = false ->
   generateStoryLogic MASTER_PROMPT_V11 GKN_SCHEMA_DEFINITION env data auth w
   = (w, inl {| code := invalid_argument;
                message := "The function must be called with a 'seed' and 'genre'." |}))
  /\ forall w' e,
       generateStoryLogic MASTER_PROMPT_V11 GKN_SCHEMA_DEFINITION env data auth w
       = (w', inl e) ->
       code e = invalid_argument ->
       nonempty (seed data) && nonempty (genre data) = false.
Proof.
  split.
  - intros Hempty. rewrite story_unfolded, <- negb_andb, Hempty. reflexivity.
  - intros w' e. rewrite story_unfolded, <- negb_andb.
    destruct (nonempty (seed data) && nonempty (genre data)); [|reflexivity].
    cbv zeta. simpl. destruct (decode_story _) as [[g hook]|].
    + destruct (write_ok env); intros [= <- <-]; discriminate.
    + intros [= <- <-]. discriminate.
Qed.

(** X12: story creation writes at most one document.  If it fails, the
    store is as it was; if it succeeds, the store has gained exactly the
    document under the returned id, which carries that id, the caller's uid
    or the anonymous sentinel, the time of the request, and the state and
    the opening text that the model's reply to the story prompt decodes to,
    the opening text being the one returned; every other document is
    untouched. *)
Theorem story_writes_one_document env data auth w w' res :
  generateStoryLogic MASTER_PROMPT_V11 GKN_SCHEMA_DEFINITION env data auth w
  = (w', res) ->
  match res with
  | inl _ => game_sessions w' = game_sessions w
  | inr r =>
      created_sessionId r = new_doc_id env
      /\ exists g,
           decode_story
             (generateContent env
                (storyPrompt (seed data) (genre data)
                   (or_default (playerName data) "Kaelen")))
           = Some (g, created_initialHook r)
           /\ game_sessions w'
              = <[new_doc_id env :=
                    {| sessionId := new_doc_id env;
                       userId := or_default auth "anonymous";
                       initialHook := created_initialHook r;
                       lastModified := Date_now env;
                       gkn := g |}]> (game_sessions w)
  end.
Proof.
  rewrite story_unfolded.
  destruct (negb (nonempty (seed data)) || negb (nonempty (genre data)));
    [intros [= <- <-]; reflexivity|].
  cbv zeta. destruct (decode_story _) as [[g hook]|];
    [|intros [= <- <-]; reflexivity].
  destruct (write_ok env); intros [= <- <-]; [|reflexivity].
  simpl. split; [reflexivity|]. exists g. split; reflexivity.
Qed.

(** *** What the handlers keep true of the store *)

Lemma or_default_nonempty o d : nonempty d = true -> nonempty (or_default o d) = true.
Proof.
  intros Hd. unfold or_default. destruct o as [s|]; [|exact Hd].
  destruct (nonempty s) eqn:Hs; [exact Hs | exact Hd].
Qed.

Lemma stamp_turnCount_truthy current updated stamped :
  stamp_turnCount current updated = Some stamped -> truthy stamped = true.
Proof.
  unfold stamp_turnCount. destruct (get_prop current "turnCount"); [|discriminate].
  simpl. destruct updated; simpl; try discriminate; intros [= <-]; reflexivity.
Qed.

(** X13: the handlers keep the store well kept.  If every stored document
    carries its own key as [sessionId], has a non-empty owner and a truthy
    opening text and state, the same is true after any story creation and
    after any turn, whatever the model replies and whether or not the
    request succeeds. *)
Theorem handlers_keep_store_well_kept env sdata tdata auth w :
  well_kept w ->
  well_kept (fst (generateStoryLogic MASTER_PROMPT_V11 GKN_SCHEMA_DEFINITION
                    env sdata auth w))
  /\ well_kept (fst (processPlayerTurnLogic MASTER_PROMPT_V11 env tdata auth w)).
Proof.
  intros Hw. split.
  - rewrite story_unfolded.
    destruct (negb (nonempty (seed sdata)) || negb (nonempty (genre sdata)));
      [exact Hw|].
    cbv zeta. destruct (decode_story _) as [[g hook]|] eqn:Hdec; [|exact Hw].
    destruct (write_ok env); [|exact Hw].
    rewrite decode_story_pair in Hdec.
    destruct (decode_pair_truthy _ _ _ _ _ Hdec) as [Hg Hhook].
    intros id doc. simpl. rewrite lookup_insert.
    destruct (decide (new_doc_id env = id)) as [<- | Hne].
    + intros [= <-]. simpl. repeat split; auto using or_default_nonempty.
    + apply Hw.
  - turn_branches; try exact Hw.
    intros id doc. simpl. rewrite lookup_alter.
    destruct (decide (turn_sessionId tdata = id)) as [<- | Hne]; [|apply Hw].
    rewrite Hstored. intros [= <-]. simpl.
    destruct (Hw _ _ Hstored) as (Hid & Huser & Hhook & _).
    repeat split; auto. exact (stamp_turnCount_truthy _ _ _ Hstamp).
Qed.

(** *** Creating a story and then playing it *)

Lemma not_owner_self auth : not_owner (or_default auth "anonymous") auth = false.
Proof.
  unfold not_owner, or_default. destruct auth as [uid|]; [|reflexivity].
  destruct (nonempty uid); [|reflexivity].
  rewrite String.eqb_refl. apply andb_false_r.
Qed.

Lemma created_session_is_stored env data auth w w' r :
  generateStoryLogic MASTER_PROMPT_V11 GKN_SCHEMA_DEFINITION env data auth w
  = (w', inr r) ->
  exists g,
    game_sessions w' !! created_sessionId r
    = Some {| sessionId := new_doc_id env;
              userId := or_default auth "anonymous";
              initialHook := created_initialHook r;
              lastModified := Date_now env;
              gkn := g |}.
Proof.
  rewrite story_unfolded.
  destruct (negb (nonempty (seed data)) || negb (nonempty (genre data)));
    [discriminate|].
  cbv zeta. destruct (decode_story _) as [[g hook]|]; [|discriminate].
  destruct (write_ok env); [|discriminate].
  intros [= <- <-]. exists g. simpl. apply lookup_insert_eq.
Qed.

(** X14: who creates a story can play it.  After a successful creation, a
    turn by the same caller (signed in or not) on the returned session id
    is never refused for its arguments, for a missing session or for
    permission: if it fails at all, it fails with [internal]. *)
Theorem creator_can_play env1 sdata auth w w1 r env2 input w2 e :
  generateStoryLogic MASTER_PROMPT_V11 GKN_SCHEMA_DEFINITION env1 sdata auth w
  = (w1, inr r) ->
  nonempty (created_sessionId r) = true ->
  nonempty input = true ->
  processPlayerTurnLogic MASTER_PROMPT_V11 env2
    {| turn_sessionId := created_sessionId r; playerInput := input |} auth w1
  = (w2, inl e) ->
  code e = internal.
Proof.
  intros Hcreate Hid Hin.
  destruct (created_session_is_stored _ _ _ _ _ _ Hcreate) as [g Hstored].
  rewrite turn_unfolded. cbv zeta. simpl. rewrite Hid, Hin. simpl.
  rewrite Hstored. simpl. rewrite not_owner_self.
  destruct (is_ooc input); [discriminate|].
  destruct (decode_turn _) as [[nar upd]|]; [|discriminate].
  destruct (stamp_turnCount _ _); [|intros [= <- <-]; reflexivity].
  destruct (write_ok env2); [discriminate | intros [= <- <-]; reflexivity].
Qed.

(** X15: a story created by a signed-in caller is closed to everybody
    else.  A turn on it by another caller, or by nobody, is refused with
    [permission-denied] and leaves the world as the creation left it. *)
Theorem stranger_is_refused env1 sdata uid w w1 r env2 input other :
  generateStoryLogic MASTER_PROMPT_V11 GKN_SCHEMA_DEFINITION env1 sdata (Some uid) w
  = (w1, inr r) ->
  nonempty uid = true ->
  uid <> "anonymous" ->
  other <> Some uid ->
  nonempty (created_sessionId r) = true ->
  nonempty input = true ->
  processPlayerTurnLogic MASTER_PROMPT_V11 env2
    {| turn_sessionId := created_sessionId r; playerInput := input |} other w1
  = (w1, inl {| code := permission_denied;
                message := "You do not have permission to access this game session." |}).
Proof.
  intros Hcreate Huid Hanon Hother Hid Hin.
  destruct (created_session_is_stored _ _ _ _ _ _ Hcreate) as [g Hstored].
  rewrite turn_unfolded. cbv zeta. simpl. rewrite Hid, Hin. simpl.
  rewrite Hstored. simpl. rewrite Huid.
  assert (not_owner uid other = true) as ->; [|reflexivity].
  unfold not_owner. apply andb_true_intro. split.
  - apply negb_true_iff, String.eqb_neq. exact Hanon.
  - destruct other as [o|]; [|reflexivity].
    apply negb_true_iff, String.eqb_neq. congruence.
Qed.

(** *** The page against the server *)

(** The request of the new-game form is refused whatever was typed. *)
Lemma new_game_request_refused env playerName storySeed genre w :
  createNewStory MASTER_PROMPT_V11 GKN_SCHEMA_DEFINITION env
    [("playerName", Some playerName); ("storySeed", Some storySeed);
     ("genre", Some genre)] None w
  = (w, inl {| code := invalid_argument;
               message := "The function must be called with a 'seed' and 'genre'." |}).
Proof. unfold createNewStory. simpl wire_get. rewrite story_unfolded. reflexivity. Qed.

(** X16: the new-game form can not create a story.  The script sends the
    seed under the key [storySeed] while the handler reads [seed], so
    whatever is typed into the form, the request is refused with
    [invalid-argument] before the model is called or anything is written.
    The page stays without a session, keeps its screens as they were and
    appends the error to the narrative of the game screen. *)
Theorem new_game_form_always_fails env playerName storySeed genre p w :
  let out := newGameForm_submit MASTER_PROMPT_V11 GKN_SCHEMA_DEFINITION env
               playerName storySeed genre (p, w) in
  snd out = w
  /\ currentSessionId (fst out) = currentSessionId p
  /\ newGameScreen_hidden (fst out) = newGameScreen_hidden p
  /\ gameScreen_hidden (fst out) = gameScreen_hidden p
  /\ createStoryBtn_disabled (fst out) = false
  /\ narrativeOutput (fst out)
     = (narrativeOutput p
        ++ [("system-text",
             "A system error occurred: The function must be called with a 'seed' and 'genre'.")])%list.
Proof.
  unfold newGameForm_submit. cbv zeta. rewrite new_game_request_refused.
  simpl. repeat split; reflexivity.
Qed.

Lemma turn_submit_without_session env p w :
  currentSessionId p = None ->
  snd (playerInputForm_submit MASTER_PROMPT_V11 env (p, w)) = w
  /\ currentSessionId (fst (playerInputForm_submit MASTER_PROMPT_V11 env (p, w))) = None.
Proof.
  intros Hnone. unfold playerInputForm_submit, processPlayerTurn.
  destruct (negb (nonempty (trim (playerInput_value p)))); [split; [reflexivity | exact Hnone]|].
  rewrite Hnone. simpl wire_get. rewrite turn_unfolded. simpl.
  split; [reflexivity | exact Hnone].
Qed.

(** X17: a page that has no session never gets one, and never reaches the
    model or the store.  Whatever sequence of new-game submissions, typing
    and turn submissions follows, and whatever the surroundings of each
    request, the server world stays exactly as it was and the page stays
    without a session. *)
Theorem page_without_session_never_plays events : forall p w,
  currentSessionId p = None ->
  snd (page_run MASTER_PROMPT_V11 GKN_SCHEMA_DEFINITION events (p, w)) = w
  /\ currentSessionId
       (fst (page_run MASTER_PROMPT_V11 GKN_SCHEMA_DEFINITION events (p, w))) = None.
Proof.
  unfold page_run.
  induction events as [|ev events IH]; intros p w Hnone;
    [split; [reflexivity | exact Hnone]|].
  simpl fold_left.
  assert (snd (page_step MASTER_PROMPT_V11 GKN_SCHEMA_DEFINITION (p, w) ev) = w
          /\ currentSessionId
               (fst (page_step MASTER_PROMPT_V11 GKN_SCHEMA_DEFINITION (p, w) ev))
             = None) as [Hw Hp].
  { destruct ev as [env playerName storySeed genre | text | env]; unfold page_step.
    - unfold newGameForm_submit. cbv zeta. cbv beta iota.
      rewrite new_game_request_refused. simpl. split; [reflexivity | exact Hnone].
    - split; [reflexivity | exact Hnone].
    - exact (turn_submit_without_session env p w Hnone). }
  destruct (page_step MASTER_PROMPT_V11 GKN_SCHEMA_DEFINITION (p, w) ev) as [p1 w1].
  simpl in Hw, Hp. subst w1. exact (IH p1 w Hp).
Qed.

(** X18: through the page, bracketed input is out-of-character even with
    white space typed around it.  The script trims what was typed before
    it sends it, so on an open session the model is not called, the world
    is unchanged, and the page shows the player's line followed by the
    state inspector's text in the out-of-character style. *)
Theorem page_trims_before_ooc env p w id doc :
  currentSessionId p = Some id ->
  nonempty id = true ->
  game_sessions w !! id = Some doc ->
  userId doc = "anonymous" ->
  startsWith (trim (playerInput_value p)) "[" = true ->
  endsWith (trim (playerInput_value p)) "]" = true ->
  let out := playerInputForm_submit MASTER_PROMPT_V11 env (p, w) in
  snd out = w
  /\ playerInput_value (fst out) = ""
  /\ narrativeOutput (fst out)
     = (narrativeOutput p
        ++ [("player-text", "> " +:+ trim (playerInput_value p));
            ("ooc-text", OOC_BANNER +:+ JSON_stringify (gkn doc))])%list.
Proof.
  intros Hsession Hid Hdoc Hanon Hstart Hend.
  assert (nonempty (trim (playerInput_value p)) = true) as Hin.
  { destruct (trim (playerInput_value p)); [discriminate Hstart | reflexivity]. }
  unfold playerInputForm_submit, processPlayerTurn. rewrite Hin, Hsession.
  simpl wire_get. cbv zeta. rewrite turn_unfolded. simpl.
  rewrite Hid, Hin. simpl. rewrite Hdoc. unfold not_owner, is_ooc.
  rewrite Hanon, Hstart, Hend. simpl.
  repeat split; try reflexivity.
  rewrite <- List.app_assoc. reflexivity.
Qed.

(** X19: every turn submission with something typed ends orderly.
    Whatever the server answers, the page has appended exactly two
    paragraphs, the player's trimmed line first, the spinner is hidden, the
    input is empty and enabled again, and the session is the same. *)
Theorem turn_submit_ends_orderly env p w :
  nonempty (trim (playerInput_value p)) = true ->
  let out := playerInputForm_submit MASTER_PROMPT_V11 env (p, w) in
  (exists cls shown,
      narrativeOutput (fst out)
      = (narrativeOutput p
         ++ [("player-text", "> " +:+ trim (playerInput_value p)); (cls, shown)])%list)
  /\ loadingIndicator_hidden (fst out) = true
  /\ submitTurnBtn_disabled (fst out) = false
  /\ playerInput_disabled (fst out) = false
  /\ playerInput_value (fst out) = ""
  /\ currentSessionId (fst out) = currentSessionId p.
Proof.
  intros Hin. unfold playerInputForm_submit. rewrite Hin. cbv zeta. simpl negb. cbv iota.
  destruct (processPlayerTurn _ _ _ _ _) as [w' [e | r]]; simpl.
  - split; [|repeat split; reflexivity].
    eexists. eexists. rewrite <- List.app_assoc. reflexivity.
  - destruct (startsWith _ "[" && endsWith _ "]"); simpl;
      (split; [|repeat split; reflexivity]);
      eexists; eexists; rewrite <- List.app_assoc; reflexivity.
Qed.

(** X20: the style of the reply tells what the server did.  After a turn
    submission with something typed, a last paragraph in the
    out-of-character style means that the server world is unchanged, and a
    last paragraph in the narrative style means that the model was asked
    exactly once. *)
Theorem reply_style_tells_the_path env p w shown :
  nonempty (trim (playerInput_value p)) = true ->
  let out := playerInputForm_submit MASTER_PROMPT_V11 env (p, w) in
  (last (narrativeOutput (fst out)) = Some ("ooc-text", shown) -> snd out = w)
  /\ (last (narrativeOutput (fst out)) = Some ("narrative-text", shown) ->
      exists prompt, prompts_sent (snd out) = prompt :: prompts_sent w).
Proof.
  intros Hin. unfold playerInputForm_submit, processPlayerTurn.
  rewrite Hin. cbv zeta. simpl negb. cbv iota.
  set (input := trim (playerInput_value p)) in *.
  rewrite turn_unfolded. cbv zeta. simpl turn_sessionId. simpl playerInput.
  change (startsWith input "[" && endsWith input "]") with (is_ooc input).
  destruct (negb (nonempty _) || negb (nonempty input)).
  { simpl. rewrite last_snoc. split; discriminate. }
  destruct (game_sessions w !! _) as [doc|].
  2:{ simpl. rewrite last_snoc. split; discriminate. }
  destruct (not_owner (userId doc) None).
  { simpl. rewrite last_snoc. split; discriminate. }
  destruct (is_ooc input) eqn:Hooc.
  { simpl. rewrite last_snoc. split; [reflexivity | discriminate]. }
  destruct (decode_turn _) as [[nar upd]|].
  2:{ simpl. rewrite last_snoc. split; [discriminate|].
      intros _. eexists. reflexivity. }
  destruct (stamp_turnCount _ _).
  2:{ simpl. rewrite last_snoc. split; discriminate. }
  destruct (write_ok env).
  - simpl. rewrite last_snoc. split; [discriminate|].
    intros _. eexists. reflexivity.
  - simpl. rewrite last_snoc. split; discriminate.
Qed.

End MoreProperties.

(** ** The properties on the sample data *)

Import Samples.

Lemma C1_witness :
  is_ooc "look" = false /\
  JSON_parse (clean_response "I cannot comply with that.") = None /\
  exists w',
    processPlayerTurnLogic "" (stub (Some "I cannot comply with that.") 200)
      look None world0
    = (w', inr {| narrative := JStr FALLBACK_NARRATIVE |})
    /\ game_sessions w' = game_sessions world0.
Proof.
  split; [reflexivity|]. split; [reflexivity|].
  apply (C1_failed_oracle_turn_is_noop ""
           (stub (Some "I cannot comply with that.") 200) look None world0
           anon_session); try reflexivity.
  apply malformed_response. reflexivity.
Defined.



(** C3 as stated fails: an input that is bracketed only after trimming is
    an ordinary turn for the handler.  The model is called, the counter
    advances and the time stamp moves. *)
Lemma C3_counterexample :
  let input := " [inspect]" in
  let out := processPlayerTurnLogic ""
               (stub (Some (echo_reply "You wait." gkn0)) 200)
               {| turn_sessionId := "s1"; playerInput := input |} None world0 in
  startsWith (trim input) "[" = true
  /\ endsWith (trim input) "]" = true
  /\ snd out = inr {| narrative := JStr "You wait." |}
  /\ length (prompts_sent (fst out)) = S (length (prompts_sent world0))
  /\ turnCount_at world0 "s1" = Some 0
  /\ turnCount_at (fst out) "s1" = Some 1
  /\ lastModified_at world0 "s1" = Some 100
  /\ lastModified_at (fst out) "s1" = Some 200.
Proof. vm_compute. repeat split; reflexivity. Qed.

Lemma C3_witness :
  startsWith "[inspect]" "[" = true /\ endsWith "[inspect]" "]" = true /\
  processPlayerTurnLogic "" (stub None 200)
    {| turn_sessionId := "s1"; playerInput := "[inspect]" |} (Some "bob") world0
  = (world0, inr {| narrative := JStr (OOC_BANNER +:+ JSON_stringify gkn0) |}).
Proof.
  split; [reflexivity|]. split; [reflexivity|].
  apply (C3_ooc_input_inspects_state "" (stub None 200)
           {| turn_sessionId := "s1"; playerInput := "[inspect]" |}
           (Some "bob") world0 anon_session); reflexivity.
Defined.

(** C4 as stated fails: the reply's turn counter of 5 and its sword are
    persisted as they came. *)
Lemma C4_counterexample :
  let out := generateStoryLogic "" ""
               (stub (Some (story_reply armed_gkn "The door creaks.")) 200)
               library_story None empty_world in
  snd out = inr {| created_sessionId := "s3";
                   created_initialHook := JStr "The door creaks." |}
  /\ gkn <$> game_sessions (fst out) !! "s3" = Some armed_gkn
  /\ turnCount_of armed_gkn = Some 5
  /\ (field armed_gkn "player" ≫= fun p => field p "inventory")
     = Some (JArr [JStr "sword"]).
Proof. vm_compute. repeat split; reflexivity. Qed.

Lemma C4_witness :
  exists g,
    decode_story (Some (story_reply armed_gkn "The door creaks."))
    = Some (g, JStr "The door creaks.")
    /\ gkn <$> game_sessions
                 (fst (generateStoryLogic "" ""
                         (stub (Some (story_reply armed_gkn "The door creaks.")) 200)
                         library_story None empty_world)) !! "s3"
       = Some g.
Proof.
  apply (C4_created_state_is_decoded_state "" ""
           (stub (Some (story_reply armed_gkn "The door creaks.")) 200)
           library_story None empty_world _
           {| created_sessionId := "s3";
              created_initialHook := JStr "The door creaks." |}).
  vm_compute. reflexivity.
Defined.

(** C5 as stated fails: the player of the decoded state stands in a
    [cellar] the world does not have, and the state is persisted as the
    new session. *)
Lemma C5_counterexample :
  let out := generateStoryLogic "" ""
               (stub (Some (story_reply lost_gkn "The door creaks.")) 200)
               library_story (Some "alice") empty_world in
  location_valid lost_gkn = false
  /\ snd out = inr {| created_sessionId := "s3";
                      created_initialHook := JStr "The door creaks." |}
  /\ gkn <$> game_sessions (fst out) !! "s3" = Some lost_gkn.
Proof. vm_compute. repeat split; reflexivity. Qed.

Lemma C5_witness :
  location_valid lost_gkn = false /\
  exists w',
    generateStoryLogic "" ""
      (stub (Some (story_reply lost_gkn "The door creaks.")) 200)
      library_story (Some "alice") empty_world
    = (w', inr {| created_sessionId := "s3";
                  created_initialHook := JStr "The door creaks." |})
    /\ gkn <$> game_sessions w' !! "s3" = Some lost_gkn.
Proof.
  split; [reflexivity|].
  apply (C5_dangling_location_is_persisted "" ""
           (stub (Some (story_reply lost_gkn "The door creaks.")) 200)
           library_story (Some "alice") empty_world lost_gkn
           (JStr "The door creaks.")); vm_compute; reflexivity.
Defined.

Lemma C6_witness :
  exists w',
    generateStoryLogic "" "" (stub (Some gkn_only_reply) 200)
      library_story None world0
    = (w', inl {| code := internal; message := "Failed to generate story world." |})
    /\ game_sessions w' = game_sessions world0.
Proof.
  apply (C6_failed_oracle_fails_creation "" ""
           (stub (Some gkn_only_reply) 200) library_story None world0);
    try reflexivity.
  apply incomplete_response with (v := JObj [("gkn", JObj [])]); [reflexivity|].
  right. intros [x Hx]. discriminate Hx.
Defined.

Lemma C7_witness :
  let out := processPlayerTurnLogic ""
               (stub (Some (echo_reply "You wait." gkn0)) 200) look None world0 in
  lastModified_at (fst out) "s1" = Some 200 /\
  (exists doc',
      game_sessions (fst out) !! "s1" = Some doc'
      /\ sessionId doc' = "s1"
      /\ userId doc' = "anonymous"
      /\ initialHook doc' = JStr "The door creaks.")
  /\ forall id, id <> "s1" ->
                game_sessions (fst out) !! id = game_sessions world0 !! id.
Proof.
  intros out. split; [vm_compute; reflexivity|].
  apply (C7_turn_writes_two_fields ""
           (stub (Some (echo_reply "You wait." gkn0)) 200) look None world0
           (fst out) (snd out) anon_session).
  - vm_compute. reflexivity.
  - reflexivity.
Defined.

Lemma C8_witness :
  let ask := {| turn_sessionId := "s2"; playerInput := "look" |} in
  let denied := inl {| code := permission_denied;
                       message := "You do not have permission to access this game session." |} in
  processPlayerTurnLogic "" (stub (Some (echo_reply "You wait." gkn0)) 200)
    ask (Some "bob") world0 = (world0, denied)
  /\ processPlayerTurnLogic "" (stub (Some (echo_reply "You wait." gkn0)) 200)
       ask None world0 = (world0, denied)
  /\ forall w' e,
       processPlayerTurnLogic "" (stub None 200) look None world0 = (w', inl e) ->
       code e <> permission_denied.
Proof.
  intros ask denied. split; [|split].
  - apply (C8_authorization "" (stub (Some (echo_reply "You wait." gkn0)) 200)
             ask (Some "bob") world0 alice_session);
      [reflexivity | reflexivity | reflexivity | discriminate | discriminate].
  - apply (C8_authorization "" (stub (Some (echo_reply "You wait." gkn0)) 200)
             ask None world0 alice_session);
      [reflexivity | reflexivity | reflexivity | discriminate | discriminate].
  - apply (C8_authorization "" (stub None 200) look None world0 anon_session);
      reflexivity.
Defined.

Lemma C10_witness :
  JSON_parse (clean_response (echo_reply "" gkn0))
  = Some (JObj [("narrative", JStr ""); ("updatedGkn", gkn0)])
  /\ exists w',
    processPlayerTurnLogic "" (stub (Some (echo_reply "" gkn0)) 200)
      look None world0
    = (w', inr {| narrative := JStr FALLBACK_NARRATIVE |})
    /\ game_sessions w' = game_sessions world0.
Proof.
  split; [vm_compute; reflexivity|].
  apply (C10_falsy_key_takes_fallback "" (stub (Some (echo_reply "" gkn0)) 200)
           look None world0 anon_session (echo_reply "" gkn0)
           (JObj [("narrative", JStr ""); ("updatedGkn", gkn0)]));
    try (vm_compute; reflexivity).
  left. exists (JStr ""). split; reflexivity.
Defined.

(** The codec round trip on a state without code fences: the echoed state
    comes back with only the counter advanced. *)
Example echo_round_trip_plain :
  let out := processPlayerTurnLogic ""
               (stub (Some (echo_reply "You wait." gkn0)) 200) look None world0 in
  snd out = inr {| narrative := JStr "You wait." |}
  /\ gkn <$> game_sessions (fst out) !! "s1"
     = Some (sample_gkn "Alex" "library" [] 1).
Proof. vm_compute. split; reflexivity. Qed.

(** The general round trip applied to the sample state. *)
Lemma echo_round_trip_sample :
  canonical gkn0 = true
  /\ occurs "```" (echo_reply "You wait." gkn0) = false
  /\ exists w' ms',
    processPlayerTurnLogic ""
      (stub (Some (echo_reply "You wait." gkn0)) 200) look None world0
    = (w', inr {| narrative := JStr "You wait." |})
    /\ gkn <$> game_sessions w' !! "s1" = Some (JObj ms')
    /\ assoc_get "turnCount" ms' = Some (JNum 1)
    /\ forall k, k <> "turnCount" -> field (JObj ms') k = field gkn0 k.
Proof.
  split; [reflexivity|]. split; [vm_compute; reflexivity|].
  eapply (echo_round_trip_without_fence ""
            (stub (Some (echo_reply "You wait." gkn0)) 200) look None world0
            anon_session _ 0 "You wait.");
    try (vm_compute; reflexivity).
  lia.
Defined.

(** A state with a code fence inside a string is within reach of the
    handlers themselves: cleaning leaves escaped backquotes alone, and
    parsing turns them into the three characters. *)
Example fenced_state_is_reachable :
  let reply := escape_backquotes (echo_reply "You sign the ledger." fenced_gkn) in
  let out := processPlayerTurnLogic "" (stub (Some reply) 200) look None world0 in
  occurs "```" reply = false
  /\ snd out = inr {| narrative := JStr "You sign the ledger." |}
  /\ gkn <$> game_sessions (fst out) !! "s1"
     = Some (sample_gkn "Al```ex" "library" [] 1).
Proof. vm_compute. repeat split; reflexivity. Qed.

(** C9 fails on a state that holds a code fence inside a string.  The
    stored player is named [Al```ex]; the model echoes the encoded state
    unchanged in a well-framed reply; cleaning the reply deletes the three
    backquotes inside the string literal, and the state that is persisted
    names the player [Alex].  Apart from the counter, the state is no longer
    the original one. *)
Theorem C9_echoed_fence_is_stripped :
  let out := processPlayerTurnLogic ""
               (stub (Some (echo_reply "You wait." fenced_gkn)) 200)
               look None fenced_world in
  gkn <$> game_sessions fenced_world !! "s1"
  = Some (sample_gkn "Al```ex" "library" [] 0)
  /\ snd out = inr {| narrative := JStr "You wait." |}
  /\ gkn <$> game_sessions (fst out) !! "s1"
     = Some (sample_gkn "Alex" "library" [] 1)
  /\ sample_gkn "Alex" "library" [] 1 <> sample_gkn "Al```ex" "library" [] 1.
Proof.
  vm_compute. repeat split; try reflexivity. discriminate.
Qed.

(** ** The further properties on the sample data *)

Import MoreSamples.

Lemma is_ooc_iff_bracketed_witness :
  (exists body, "[inspect]" = "[" +:+ body +:+ "]")
  /\ is_ooc "[look at [the] door]" = true.
Proof.
  split.
  - apply (proj1 (is_ooc_iff_bracketed "[inspect]")). reflexivity.
  - apply (proj2 (is_ooc_iff_bracketed "[look at [the] door]")).
    exists "look at [the] door". reflexivity.
Defined.

Lemma fenced_reply_decodes_like_bare_witness :
  occurs "```" (echo_reply "You wait." gkn0) = false
  /\ decode_turn (Some (fenced (echo_reply "You wait." gkn0)))
     = decode_turn (Some (echo_reply "You wait." gkn0))
  /\ decode_story (Some (fenced (echo_reply "You wait." gkn0)))
     = decode_story (Some (echo_reply "You wait." gkn0)).
Proof.
  split; [vm_compute; reflexivity|].
  apply (fenced_reply_decodes_like_bare (echo_reply "You wait." gkn0)).
  vm_compute. reflexivity.
Defined.

Lemma decode_of_encode_witness :
  canonical gkn0 = true
  /\ JSON_parse (clean_response (JSON_stringify gkn0)) = Some gkn0.
Proof.
  split; [vm_compute; reflexivity|].
  apply (decode_of_encode gkn0); vm_compute; reflexivity.
Defined.

Lemma turn_invalid_argument_iff_witness :
  let data := {| turn_sessionId := "s1"; playerInput := "" |} in
  processPlayerTurnLogic "" (stub None 200) data None world0
  = (world0,
     inl {| code := invalid_argument;
            message := "The function must be called with a 'sessionId' and 'playerInput'." |})
  /\ nonempty (turn_sessionId data) && nonempty (playerInput data) = false.
Proof.
  intros data.
  pose proof (turn_invalid_argument_iff "" (stub None 200) data None world0) as [Hif Honly].
  split.
  - apply Hif. reflexivity.
  - apply (Honly world0
             {| code := invalid_argument;
                message := "The function must be called with a 'sessionId' and 'playerInput'." |});
      reflexivity.
Defined.

Lemma turn_not_found_means_missing_session_witness :
  let data := {| turn_sessionId := "s9"; playerInput := "look" |} in
  let out := processPlayerTurnLogic "" (stub None 200) data None world0 in
  exists e,
    snd out = inl e
    /\ code e = not_found
    /\ game_sessions world0 !! "s9" = None
    /\ message e = "Game session with ID s9 not found."
    /\ fst out = world0.
Proof.
  intros data out.
  exists {| code := not_found; message := "Game session with ID s9 not found." |}.
  split; [reflexivity|]. split; [reflexivity|].
  apply (turn_not_found_means_missing_session "" (stub None 200) data None world0
           (fst out)
           {| code := not_found; message := "Game session with ID s9 not found." |});
    reflexivity.
Defined.

Lemma turn_internal_means_lost_reply_witness :
  let env := failing_store (Some (echo_reply "You wait." gkn0)) 200 in
  let out := processPlayerTurnLogic "" env look None world0 in
  exists e,
    snd out = inl e /\ code e = internal
    /\ exists doc nar upd,
         game_sessions world0 !! "s1" = Some doc
         /\ decode_turn (generateContent env
                           (getGameMasterPrompt "" (gkn doc) "look"))
            = Some (nar, upd)
         /\ truthy nar = true /\ truthy upd = true
         /\ (stamp_turnCount (gkn doc) upd = None \/ write_ok env = false)
         /\ fst out
            = {| game_sessions := game_sessions world0;
                 prompts_sent := getGameMasterPrompt "" (gkn doc) "look"
                                 :: prompts_sent world0 |}.
Proof.
  intros env out.
  destruct (snd out) as [e|r] eqn:Hout; [|vm_compute in Hout; discriminate Hout].
  exists e. split; [reflexivity|].
  assert (code e = internal) as Hcode.
  { vm_compute in Hout. injection Hout as <-. reflexivity. }
  split; [exact Hcode|].
  apply (turn_internal_means_lost_reply "" env look None world0 (fst out) e);
    [|exact Hcode].
  rewrite <- Hout. apply surjective_pairing.
Defined.

Lemma turn_asks_at_most_once_witness :
  let env := stub (Some (echo_reply "You wait." gkn0)) 200 in
  let out := processPlayerTurnLogic "" env look None world0 in
  prompts_sent (fst out) = prompts_sent world0
  \/ exists doc,
       game_sessions world0 !! "s1" = Some doc
       /\ not_owner (userId doc) None = false
       /\ is_ooc "look" = false
       /\ prompts_sent (fst out)
          = getGameMasterPrompt "" (gkn doc) "look" :: prompts_sent world0.
Proof.
  intros env out.
  apply (turn_asks_at_most_once "" env look None world0 (fst out) (snd out)).
  apply surjective_pairing.
Defined.

(** The reply keeps only the player: the world the stored state had is
    gone after the turn. *)
Lemma turn_replaces_state_wholesale_witness :
  let env := stub (Some (echo_reply "You wait." uncounted_gkn)) 200 in
  let out := processPlayerTurnLogic "" env look None world0 in
  field gkn0 "world" <> None
  /\ exists ms',
       gkn <$> game_sessions (fst out) !! "s1" = Some (JObj ms')
       /\ forall k, k <> "turnCount" ->
                    assoc_get k ms'
                    = assoc_get k [("player", JObj [("name", JStr "Alex")])].
Proof.
  intros env out.
  split; [discriminate|].
  apply (turn_replaces_state_wholesale "" env look None world0 (fst out)
           (JStr "You wait.") anon_session
           match gkn0 with JObj old => old | _ => [] end
           [("player", JObj [("name", JStr "Alex")])]);
    vm_compute; reflexivity.
Defined.

Lemma missing_counter_counts_as_zero_witness :
  let env := stub (Some (echo_reply "You wait." uncounted_gkn)) 200 in
  turnCount_at uncounted_world "s1" = None
  /\ turnCount_at (fst (processPlayerTurnLogic "" env look None uncounted_world)) "s1"
     = Some 1.
Proof.
  intros env. split; [reflexivity|].
  apply (missing_counter_counts_as_zero "" env look None uncounted_world _
           {| sessionId := "s1"; userId := "anonymous";
              initialHook := JStr "The door creaks.";
              lastModified := 100; gkn := uncounted_gkn |}
           [("player", JObj [("name", JStr "Alex")])]);
    [|reflexivity|reflexivity|reflexivity].
  split; [reflexivity|]. split.
  - eexists. eexists. eexists. split; [reflexivity|]. vm_compute. reflexivity.
  - eexists. vm_compute. reflexivity.
Defined.

Lemma story_invalid_argument_iff_witness :
  let data := {| seed := ""; genre := "Adventure"; playerName := Some "Alex" |} in
  generateStoryLogic "" "" (stub None 200) data None world0
  = (world0,
     inl {| code := invalid_argument;
            message := "The function must be called with a 'seed' and 'genre'." |})
  /\ nonempty (seed data) && nonempty (genre data) = false.
Proof.
  intros data.
  pose proof (story_invalid_argument_iff "" "" (stub None 200) data None world0)
    as [Hif Honly].
  split.
  - apply Hif. reflexivity.
  - apply (Honly world0
             {| code := invalid_argument;
                message := "The function must be called with a 'seed' and 'genre'." |});
      reflexivity.
Defined.

Lemma story_writes_one_document_witness :
  let env := stub (Some (story_reply gkn0 "The door creaks.")) 200 in
  let out := generateStoryLogic "" "" env library_story (Some "alice") world0 in
  decode_story (Some (story_reply gkn0 "The door creaks."))
  = Some (gkn0, JStr "The door creaks.")
  /\ game_sessions (fst out)
     = <["s3" := {| sessionId := "s3"; userId := "alice";
                    initialHook := JStr "The door creaks.";
                    lastModified := 200; gkn := gkn0 |}]> (game_sessions world0).
Proof.
  intros env out.
  pose proof (story_writes_one_document "" "" env library_story (Some "alice") world0
                (fst out)
                (inr {| created_sessionId := "s3";
                        created_initialHook := JStr "The door creaks." |})) as H.
  destruct H as [_ (g & Hdec & Hstore)]; [vm_compute; reflexivity|].
  assert (g = gkn0) as ->.
  { vm_compute in Hdec. injection Hdec as <-. reflexivity. }
  split; [vm_compute; reflexivity | exact Hstore].
Defined.

Lemma world0_well_kept : well_kept world0.
Proof.
  intros id doc Hdoc. unfold world0 in Hdoc. simpl in Hdoc.
  apply lookup_insert_Some in Hdoc as [[<- <-] | [_ Hdoc]].
  - repeat split; reflexivity.
  - apply lookup_singleton_Some in Hdoc as [<- <-]. repeat split; reflexivity.
Qed.

Lemma handlers_keep_store_well_kept_witness :
  well_kept (fst (generateStoryLogic "" ""
                    (stub (Some (story_reply gkn0 "The door creaks.")) 200)
                    library_story (Some "alice") world0))
  /\ well_kept (fst (processPlayerTurnLogic ""
                       (stub (Some (echo_reply "You wait." uncounted_gkn)) 200)
                       look None world0)).
Proof.
  split.
  - apply (proj1 (handlers_keep_store_well_kept "" ""
                    (stub (Some (story_reply gkn0 "The door creaks.")) 200)
                    library_story look (Some "alice") world0 world0_well_kept)).
  - apply (proj2 (handlers_keep_store_well_kept "" ""
                    (stub (Some (echo_reply "You wait." uncounted_gkn)) 200)
                    library_story look None world0 world0_well_kept)).
Defined.

Lemma creator_can_play_witness :
  let w1 := fst (generateStoryLogic "" ""
                   (stub (Some (story_reply gkn0 "The door creaks.")) 200)
                   library_story None empty_world) in
  let out := processPlayerTurnLogic ""
               (failing_store (Some (echo_reply "You wait." gkn0)) 300)
               {| turn_sessionId := "s3"; playerInput := "look" |} None w1 in
  exists e, snd out = inl e /\ code e = internal.
Proof.
  intros w1 out.
  destruct (snd out) as [e|r] eqn:Hout; [|vm_compute in Hout; discriminate Hout].
  exists e. split; [reflexivity|].
  apply (creator_can_play "" ""
           (stub (Some (story_reply gkn0 "The door creaks.")) 200)
           library_story None empty_world w1
           {| created_sessionId := "s3"; created_initialHook := JStr "The door creaks." |}
           (failing_store (Some (echo_reply "You wait." gkn0)) 300)
           "look" (fst out) e);
    [vm_compute; reflexivity | reflexivity | reflexivity |].
  rewrite <- Hout. apply surjective_pairing.
Defined.

Lemma stranger_is_refused_witness :
  let w1 := fst (generateStoryLogic "" ""
                   (stub (Some (story_reply gkn0 "The door creaks.")) 200)
                   library_story (Some "alice") empty_world) in
  processPlayerTurnLogic "" (stub (Some (echo_reply "You wait." gkn0)) 300)
    {| turn_sessionId := "s3"; playerInput := "look" |} (Some "bob") w1
  = (w1, inl {| code := permission_denied;
                message := "You do not have permission to access this game session." |})
  /\ processPlayerTurnLogic "" (stub (Some (echo_reply "You wait." gkn0)) 300)
       {| turn_sessionId := "s3"; playerInput := "look" |} None w1
     = (w1, inl {| code := permission_denied;
                   message := "You do not have permission to access this game session." |}).
Proof.
  intros w1.
  split.
  - apply (stranger_is_refused "" ""
             (stub (Some (story_reply gkn0 "The door creaks.")) 200)
             library_story "alice" empty_world w1
             {| created_sessionId := "s3";
                created_initialHook := JStr "The door creaks." |});
      [vm_compute; reflexivity | reflexivity | discriminate | discriminate
      | reflexivity | reflexivity].
  - apply (stranger_is_refused "" ""
             (stub (Some (story_reply gkn0 "The door creaks.")) 200)
             library_story "alice" empty_world w1
             {| created_sessionId := "s3";
                created_initialHook := JStr "The door creaks." |});
      [vm_compute; reflexivity | reflexivity | discriminate | discriminate
      | reflexivity | reflexivity].
Defined.

Lemma page_without_session_never_plays_witness :
  let env := stub (Some (story_reply gkn0 "The door creaks.")) 200 in
  let out := page_run "" ""
               [SubmitNewGame env "Alex" "A dusty old library." "Adventure";
                TypeInput "look"; SubmitTurn env]
               (loaded_page, world0) in
  snd out = world0 /\ currentSessionId (fst out) = None.
Proof.
  intros env out.
  apply (page_without_session_never_plays "" "" _ loaded_page world0). reflexivity.
Defined.

Lemma page_trims_before_ooc_witness :
  let out := playerInputForm_submit "" (stub None 200)
               (playing_page "  [inspect] ", world0) in
  snd out = world0
  /\ playerInput_value (fst out) = ""
  /\ narrativeOutput (fst out)
     = [("narrative-text", "The door creaks.");
        ("player-text", "> [inspect]");
        ("ooc-text", OOC_BANNER +:+ JSON_stringify gkn0)].
Proof.
  intros out.
  apply (page_trims_before_ooc "" (stub None 200) (playing_page "  [inspect] ")
           world0 "s1" anon_session); reflexivity.
Defined.

Lemma turn_submit_ends_orderly_witness :
  let p := playing_page " look " in
  let out := playerInputForm_submit ""
               (failing_store (Some (echo_reply "You wait." gkn0)) 200) (p, world0) in
  (exists cls shown,
      narrativeOutput (fst out)
      = [("narrative-text", "The door creaks."); ("player-text", "> look");
         (cls, shown)])
  /\ loadingIndicator_hidden (fst out) = true
  /\ submitTurnBtn_disabled (fst out) = false
  /\ playerInput_disabled (fst out) = false
  /\ playerInput_value (fst out) = ""
  /\ currentSessionId (fst out) = Some "s1".
Proof.
  intros p out.
  apply (turn_submit_ends_orderly ""
           (failing_store (Some (echo_reply "You wait." gkn0)) 200) p world0).
  reflexivity.
Defined.

Lemma reply_style_tells_the_path_witness :
  let out := playerInputForm_submit ""
               (stub (Some (echo_reply "You wait." gkn0)) 200)
               (playing_page " look ", world0) in
  last (narrativeOutput (fst out)) = Some ("narrative-text", "You wait.")
  /\ exists prompt, prompts_sent (snd out) = prompt :: prompts_sent world0.
Proof.
  intros out.
  assert (last (narrativeOutput (fst out)) = Some ("narrative-text", "You wait."))
    as Hlast by (vm_compute; reflexivity).
  split; [exact Hlast|].
  apply (proj2 (reply_style_tells_the_path ""
                  (stub (Some (echo_reply "You wait." gkn0)) 200)
                  (playing_page " look ") world0 "You wait." eq_refl)).
  exact Hlast.
Defined.
